(** * probot-auto-merge: the merge decision engine of [src/index.ts]

    A shallow embedding of [updatePullRequest] and of the handlers around
    it, together with the properties of the review aggregation, the check
    aggregation and the rule cascade that decides between merging,
    blocking and rechecking. *)

From Stdlib Require Import ZArith Lia.
From stdpp Require Import base tactics option numbers list sorting strings gmap fin_maps.

Local Open Scope Z_scope.

(** ** Data model *)

(** [type Config = typeof defaultConfig]: the two thresholds, keyed
    ['min-approvals'] and ['max-requested-changes'] in the source. *)
Record Config := {
  min_approvals : Z;
  max_requested_changes : Z
}.

Definition defaultConfig : Config :=
  {| min_approvals := 1; max_requested_changes := 0 |}.

(** Modelled from the spec: the declarations of the types [PullRequest],
    [Review], [ReviewState], [CheckRun] and [CheckPullRequest] are not part
    of [index.ts]; the enumerations below list the values the data model
    gives for each string-valued field, and the records keep the fields
    that [index.ts] reads. *)
Inductive PullRequestState := open | closed.

Inductive ReviewState :=
  APPROVED | CHANGES_REQUESTED | COMMENTED | DISMISSED | PENDING_REVIEW.

Inductive CheckStatus := queued | in_progress | completed.

Inductive Conclusion :=
  success | failure | neutral | cancelled | timed_out | action_required | skipped.

#[global] Instance PullRequestState_eq_dec : EqDecision PullRequestState.
Proof. solve_decision. Defined.
#[global] Instance ReviewState_eq_dec : EqDecision ReviewState.
Proof. solve_decision. Defined.
#[global] Instance CheckStatus_eq_dec : EqDecision CheckStatus.
Proof. solve_decision. Defined.
#[global] Instance Conclusion_eq_dec : EqDecision Conclusion.
Proof. solve_decision. Defined.

(** [pullRequest.base.repo.name], [pullRequest.base.user.login],
    [pullRequest.number], [pullRequest.head.sha], [pullRequest.state],
    [pullRequest.merged] and the nullable [pullRequest.mergeable]. *)
Record PullRequest := {
  base_repo_name : string;
  base_user_login : string;
  number : Z;
  head_sha : string;
  state : PullRequestState;
  merged : bool;
  mergeable : option bool
}.

(** [review.user.login], [review.state] and the instant
    [new Date(review.submitted_at).getTime()], in milliseconds. *)
Record Review := {
  user_login : string;
  review_state : ReviewState;
  submitted_at : Z
}.

Record CheckRun := {
  name : string;
  status : CheckStatus;
  conclusion : option Conclusion
}.

(** The entries of [check_run.pull_requests] and
    [check_suite.pull_requests]; only [number] is read. *)
Record CheckPullRequest := {
  cpr_number : Z
}.

#[global] Instance Config_eq_dec : EqDecision Config.
Proof. solve_decision. Defined.
#[global] Instance PullRequest_eq_dec : EqDecision PullRequest.
Proof. solve_decision. Defined.
#[global] Instance Review_eq_dec : EqDecision Review.
Proof. solve_decision. Defined.
#[global] Instance CheckRun_eq_dec : EqDecision CheckRun.
Proof. solve_decision. Defined.

(** ** [Array.prototype.sort]

    The sort is stable: elements that the comparator does not separate keep
    their input order. For a comparator that is a total preorder the result
    is determined by that, and insertion from the right computes it: an
    element goes in front of the first element it does not exceed. *)
Section Sort.
Context {A : Type} (compareFn : A → A → Z).

Fixpoint sort_insert (x : A) (l : list A) : list A :=
  match l with
  | [] => [x]
  | y :: l' =>
      if bool_decide (compareFn x y ≤ 0) then x :: y :: l'
      else y :: sort_insert x l'
  end.

Fixpoint sort (l : list A) : list A :=
  match l with
  | [] => []
  | x :: l' => sort_insert x (sort l')
  end.
End Sort.

(** ** Review aggregation (lines 79-86 and 94-105) *)

(** [(a, b) => new Date(a.submitted_at).getTime() - new Date(b.submitted_at).getTime()] *)
Definition bySubmittedAt (a b : Review) : Z :=
  submitted_at a - submitted_at b.

(** [reviews.sort(...).reduce((state, review) => ({...state, [review.user.login]: review.state}), {})] *)
Definition latestReviews (reviews : list Review) : gmap string ReviewState :=
  foldl (λ state review, <[user_login review := review_state review]> state)
        ∅ (sort bySubmittedAt reviews).

(** [Object.values(latestReviews)]; the order of the values plays no part in
    the counts taken from them. *)
Definition reviewStates (latest : gmap string ReviewState) : list ReviewState :=
  (map_to_list latest).*2.

Definition changesRequestedCount (latest : gmap string ReviewState) : Z :=
  Z.of_nat (length (filter (λ reviewState, reviewState = CHANGES_REQUESTED)
                           (reviewStates latest))).

Definition approvalCount (latest : gmap string ReviewState) : Z :=
  Z.of_nat (length (filter (λ reviewState, reviewState = APPROVED)
                           (reviewStates latest))).

(** ** Check aggregation (lines 113-125) *)

Definition allChecksCompleted (checkRuns : list CheckRun) : bool :=
  forallb (λ checkRun, bool_decide (status checkRun = completed)) checkRuns.

Definition conclusionName (c : Conclusion) : string :=
  match c with
  | success => "success"
  | failure => "failure"
  | neutral => "neutral"
  | cancelled => "cancelled"
  | timed_out => "timed_out"
  | action_required => "action_required"
  | skipped => "skipped"
  end.

(** The property key that a computed key [[checkRun.conclusion]] denotes:
    a [null] conclusion is turned into the key ["null"]. *)
Definition conclusionKey (c : option Conclusion) : string :=
  match c with
  | Some c => conclusionName c
  | None => "null"
  end.

(** [checkRuns.reduce((result, checkRun) => ({...result, [checkRun.conclusion]: true}), {})] *)
Definition checkConclusions (checkRuns : list CheckRun) : gmap string bool :=
  foldl (λ result checkRun, <[conclusionKey (conclusion checkRun) := true]> result)
        ∅ checkRuns.

(** Reading a property of the bag in a boolean position: an absent
    property is [undefined], which is falsy. *)
Definition truthy (conclusions : gmap string bool) (key : string) : bool :=
  default false (conclusions !! key).

(** [checkConclusions.failure || checkConclusions.cancelled ||
     checkConclusions.timed_out || checkConclusions.action_required] *)
Definition checksBlocking (conclusions : gmap string bool) : bool :=
  truthy conclusions "failure" || truthy conclusions "cancelled"
  || truthy conclusions "timed_out" || truthy conclusions "action_required".

(** ** The platform and the effects of one evaluation

    The REST client is not part of [index.ts]. A [GitHub] value is what the
    platform answers while one evaluation runs; a read that the platform
    rejects ([None]) makes the [await] throw, which ends the evaluation. *)
Record GitHub := {
  pullRequests_get : string → string → Z → option PullRequest;
  pullRequests_getReviews : string → string → Z → option (list Review);
  checks_listForRef : string → string → string → option (list CheckRun);
  pullRequests_merge : string → string → Z → option unit
}.

(** The text handed to [log], with the interpolated values kept as data. *)
Inductive Message :=
| MsgNotOpen                                (* 'Pull request not open' *)
| MsgAlreadyMerged                          (* 'Pull request was already merged' *)
| MsgNotMergeable (mergeable : option bool) (* 'Pull request is not mergeable: ' + mergeable *)
| MsgReviews (latest : gmap string ReviewState)  (* the 'user: state' lines *)
| MsgChangesRequested (count threshold : Z)     (* 'There are changes requested by a reviewer (count / threshold)' *)
| MsgNotEnoughApprovals (count threshold : Z)   (* 'There are not enough approvals by reviewers (count / threshold)' *)
| MsgChecks (checkRuns : list CheckRun)         (* the 'name: status: conclusion' lines *)
| MsgPendingChecks                          (* 'There are still pending checks. Scheduling recheck.' *)
| MsgConclusions (conclusions : gmap string bool) (* 'conclusions: ' + JSON.stringify(checkConclusions) *)
| MsgBlockingChecks                         (* 'There are blocking checks' *)
| MsgMerge.                                 (* 'Merge pull request' *)

(** What a timer holds: the closure
    [async () => { await updatePullRequest(context, pullRequest, config) }]
    with the variables it captured. *)
Inductive Callback :=
| Recheck (pullRequest : PullRequest) (config : Config).

(** Everything an evaluation does to the outside, in program order. *)
Inductive Action :=
| Log (repo owner : string) (number : Z) (msg : Message)
| GetPullRequest (owner repo : string) (number : Z)
| GetReviews (owner repo : string) (number : Z)
| ListForRef (owner repo ref filter : string)
| Merge (owner repo : string) (number : Z) (merge_method : string)
| SetTimeout (callback : Callback) (ms : Z).

(** An [async] computation: the actions it performed and either the value
    it resolved to or [None] when an awaited call threw. *)
Definition Async (A : Type) : Type := list Action * option A.

#[global] Instance Async_ret : MRet Async := λ A a, ([], Some a).
#[global] Instance Async_bind : MBind Async := λ A B k m,
  match m with
  | (t, Some a) => let '(t', b) := k a in (t ++ t', b)
  | (t, None) => (t, None)
  end.

Definition perform (a : Action) : Async unit := ([a], Some tt).

(** [await] of a platform call: the call is recorded, and its answer is the
    value or the exception. *)
Definition await {A} (a : Action) (answer : option A) : Async A := ([a], answer).

Definition actions {A} (m : Async A) : list Action := m.1.
Definition result {A} (m : Async A) : option A := m.2.

Definition isMerge (a : Action) : bool :=
  match a with Merge _ _ _ _ => true | _ => false end.
Definition isGetPullRequest (a : Action) : bool :=
  match a with GetPullRequest _ _ _ => true | _ => false end.

(** The timers an evaluation left behind. *)
Definition timers (t : list Action) : list (Callback * Z) :=
  omap (λ a, match a with SetTimeout cb ms => Some (cb, ms) | _ => None end) t.

(** ** [updatePullRequest] (lines 53-133) *)

Definition updatePullRequest (github : GitHub) (pullRequest : PullRequest)
    (config : Config) : Async unit :=
  let repo := base_repo_name pullRequest in
  let owner := base_user_login pullRequest in
  let number := number pullRequest in
  let log (msg : Message) : Async unit := perform (Log repo owner number msg) in
  if bool_decide (state pullRequest ≠ open) then
    log MsgNotOpen
  else if merged pullRequest then
    log MsgAlreadyMerged
  else if negb (default false (mergeable pullRequest)) then
    log (MsgNotMergeable (mergeable pullRequest))
  else
    reviews ← await (GetReviews owner repo number)
                    (pullRequests_getReviews github owner repo number) ;
    let latestReviews := latestReviews reviews in
    log (MsgReviews latestReviews) ;;
    let changesRequestedCount := changesRequestedCount latestReviews in
    if bool_decide (changesRequestedCount > min_approvals config) then
      log (MsgChangesRequested changesRequestedCount (min_approvals config))
    else
      let approvalCount := approvalCount latestReviews in
      if bool_decide (approvalCount < max_requested_changes config) then
        log (MsgNotEnoughApprovals approvalCount (max_requested_changes config))
      else
        checkRuns ← await (ListForRef owner repo (head_sha pullRequest) "latest")
                          (checks_listForRef github owner repo (head_sha pullRequest)) ;
        log (MsgChecks checkRuns) ;;
        if negb (allChecksCompleted checkRuns) then
          log MsgPendingChecks ;;
          perform (SetTimeout (Recheck pullRequest config) 60000)
        else
          let checkConclusions := checkConclusions checkRuns in
          log (MsgConclusions checkConclusions) ;;
          if checksBlocking checkConclusions then
            log MsgBlockingChecks
          else
            await (Merge owner repo number "merge")
                  (pullRequests_merge github owner repo number) ;;
            log MsgMerge.

(** ** The decision an evaluation took

    [updatePullRequest] returns [undefined] on every path; which outcome of
    the rule cascade it reached shows in what it did: a merge request, a
    timer, or the log line in front of its [return]. *)
Inductive Reason :=
| NotOpen | AlreadyMerged | NotMergeable
| TooManyChangeRequests | NotEnoughApprovals | BlockingCheckConclusion.

Inductive MergeDecision :=
| MERGE
| BLOCKED (reason : Reason)
| PENDING (ms : Z).

#[global] Instance Reason_eq_dec : EqDecision Reason.
Proof. solve_decision. Defined.
#[global] Instance MergeDecision_eq_dec : EqDecision MergeDecision.
Proof. solve_decision. Defined.

Definition reasonOf (msg : Message) : option Reason :=
  match msg with
  | MsgNotOpen => Some NotOpen
  | MsgAlreadyMerged => Some AlreadyMerged
  | MsgNotMergeable _ => Some NotMergeable
  | MsgChangesRequested _ _ => Some TooManyChangeRequests
  | MsgNotEnoughApprovals _ _ => Some NotEnoughApprovals
  | MsgBlockingChecks => Some BlockingCheckConclusion
  | _ => None
  end.

Definition decision (t : list Action) : option MergeDecision :=
  if existsb isMerge t then Some MERGE
  else match timers t with
       | (_, ms) :: _ => Some (PENDING ms)
       | [] => match last t with
               | Some (Log _ _ _ msg) => BLOCKED <$> reasonOf msg
               | _ => None
               end
       end.

(** When a timer fires, its closure runs against the platform as it is
    then. *)
Definition fire (github : GitHub) (callback : Callback) : Async unit :=
  match callback with
  | Recheck pullRequest config => updatePullRequest github pullRequest config
  end.

(** ** [updateCheckPullRequests] (lines 42-51)

    [owner] and [repo] are [context.payload.repository.owner.login] and
    [context.payload.repository.name]. *)
Fixpoint updateCheckPullRequests (github : GitHub) (owner repo : string)
    (pullRequests : list CheckPullRequest) (config : Config) : Async unit :=
  match pullRequests with
  | [] => mret tt
  | checkPullRequest :: rest =>
      let number := cpr_number checkPullRequest in
      pullRequest ← await (GetPullRequest owner repo number)
                          (pullRequests_get github owner repo number) ;
      updatePullRequest github pullRequest config ;;
      updateCheckPullRequests github owner repo rest config
  end.

(** ** Notions used in the statements *)

(** Reviews in ascending order of submission. *)
Definition ascending : list Review → Prop :=
  StronglySorted (λ a b, submitted_at a ≤ submitted_at b).

(** The review of [u] that the reduction leaves in the mapping, computed on
    the input order: a review gives way to a later one of the same reviewer
    unless it was submitted strictly after it. *)
Fixpoint latestOf (u : string) (reviews : list Review) : option Review :=
  match reviews with
  | [] => None
  | x :: rest =>
      if decide (user_login x = u) then
        match latestOf u rest with
        | None => Some x
        | Some w =>
            if bool_decide (submitted_at x ≤ submitted_at w) then Some w else Some x
        end
      else latestOf u rest
  end.

(** [r], at position [i], is the latest review of its author: every review
    of the same author is older, or as old and not later in the list. *)
Definition latestAt (reviews : list Review) (i : nat) (r : Review) : Prop :=
  reviews !! i = Some r ∧
  ∀ j r', reviews !! j = Some r' → user_login r' = user_login r →
          submitted_at r' < submitted_at r
          ∨ (submitted_at r' = submitted_at r ∧ (j ≤ i)%nat).

(** The conclusions that rule 7 treats as blocking. *)
Definition blocking (c : Conclusion) : bool :=
  match c with
  | failure | cancelled | timed_out | action_required => true
  | _ => false
  end.

(** The number of reviewers whose entry in the mapping is [s]. *)
Definition reviewersIn (s : ReviewState) (latest : gmap string ReviewState) : Z :=
  Z.of_nat (size (filter (λ entry : string * ReviewState, entry.2 = s) latest)).

(** The rule table of §4.3, on the aggregated inputs. *)
Definition policy (pullRequest : PullRequest) (latest : gmap string ReviewState)
    (config : Config) (allCompleted : bool) (conclusions : gmap string bool)
    : MergeDecision :=
  if bool_decide (state pullRequest ≠ open) then BLOCKED NotOpen
  else if merged pullRequest then BLOCKED AlreadyMerged
  else if bool_decide (mergeable pullRequest ≠ Some true) then BLOCKED NotMergeable
  else if bool_decide (reviewersIn CHANGES_REQUESTED latest > min_approvals config)
       then BLOCKED TooManyChangeRequests
  else if bool_decide (reviewersIn APPROVED latest < max_requested_changes config)
       then BLOCKED NotEnoughApprovals
  else if negb allCompleted then PENDING 60000
  else if checksBlocking conclusions then BLOCKED BlockingCheckConclusion
  else MERGE.

(** ** Sample inputs *)

Definition samplePR : PullRequest :=
  {| base_repo_name := "app"; base_user_login := "octo"; number := 7;
     head_sha := "abc123"; state := open; merged := false;
     mergeable := Some true |}.

Definition closedPR : PullRequest :=
  {| base_repo_name := "app"; base_user_login := "octo"; number := 7;
     head_sha := "abc123"; state := closed; merged := false;
     mergeable := Some true |}.

Definition unknownPR : PullRequest :=
  {| base_repo_name := "app"; base_user_login := "octo"; number := 7;
     head_sha := "abc123"; state := open; merged := false;
     mergeable := None |}.

Definition alice_approves : Review :=
  {| user_login := "alice"; review_state := APPROVED; submitted_at := 1000 |}.
Definition alice_rejects : Review :=
  {| user_login := "alice"; review_state := CHANGES_REQUESTED; submitted_at := 2000 |}.
Definition bob_rejects : Review :=
  {| user_login := "bob"; review_state := CHANGES_REQUESTED; submitted_at := 1500 |}.
Definition bob_approves : Review :=
  {| user_login := "bob"; review_state := APPROVED; submitted_at := 3000 |}.

Definition ci_running : CheckRun :=
  {| name := "ci"; status := in_progress; conclusion := None |}.
Definition ci_passed : CheckRun :=
  {| name := "ci"; status := completed; conclusion := Some success |}.
Definition ci_failed : CheckRun :=
  {| name := "ci"; status := completed; conclusion := Some failure |}.
Definition lint_passed : CheckRun :=
  {| name := "lint"; status := completed; conclusion := Some success |}.

(** A platform that holds one pull request, answers every read and accepts
    a merge exactly when that pull request is open. *)
Definition platform (pullRequest : PullRequest) (reviews : list Review)
    (checkRuns : list CheckRun) : GitHub :=
  {| pullRequests_get := λ _ _ _, Some pullRequest;
     pullRequests_getReviews := λ _ _ _, Some reviews;
     checks_listForRef := λ _ _ _, Some checkRuns;
     pullRequests_merge := λ _ _ _,
       if bool_decide (state pullRequest = open) then Some tt else None |}.

(** ** The platform calls of an evaluation *)

(** The actions that reach the platform, as opposed to log lines and
    timers. *)
Definition isCall (a : Action) : bool :=
  match a with
  | Log _ _ _ _ | SetTimeout _ _ => false
  | _ => true
  end.

Definition calls (t : list Action) : list Action := List.filter isCall t.

(** The lines an evaluation logged. *)
Definition logged (t : list Action) : list Message :=
  omap (λ a, match a with Log _ _ _ msg => Some msg | _ => None end) t.

(** ** The chain of rechecks (lines 116-118)

    The closure of a timer calls [updatePullRequest] again, which may set
    the next timer. [rechecks] follows one such chain: [platforms] lists the
    platform as it is at each firing. *)
Fixpoint rechecks (platforms : list GitHub) (callback : Callback)
    : list (Async unit) :=
  match platforms with
  | [] => []
  | github :: later =>
      let run := fire github callback in
      run :: match timers (actions run) with
             | (next, _) :: _ => rechecks later next
             | [] => []
             end
  end.

(** ** The event handlers (lines 16-40)

    An event is named by its family and its action, and the family fixes
    the payload: [payload.pull_request] for the pull request families,
    [payload.repository.owner.login], [payload.repository.name] and
    [payload.check_run.pull_requests] or [payload.check_suite.pull_requests]
    for the check families. *)
Inductive Event :=
| pull_request (action : string) (pull_request : PullRequest)
| pull_request_review (action : string) (pull_request : PullRequest)
| check_run (action : string) (owner repo : string)
    (pull_requests : list CheckPullRequest)
| check_suite (action : string) (owner repo : string)
    (pull_requests : list CheckPullRequest).

(** [app.on(names, handler)]: the handler runs for the events named in the
    list. [config] is what [loadConfig(context)] resolved to. *)
Definition receive (github : GitHub) (config : Config) (event : Event)
    : Async unit :=
  match event with
  | pull_request action pullRequest =>
      if bool_decide (action ∈ ["opened"; "reopened"; "synchronize"])
      then updatePullRequest github pullRequest config
      else mret tt
  | pull_request_review action pullRequest =>
      if bool_decide (action ∈ ["submitted"; "dismissed"])
      then updatePullRequest github pullRequest config
      else mret tt
  | check_run action owner repo pullRequests =>
      if bool_decide (action ∈ ["created"; "rerequested"; "requested_action"])
      then updateCheckPullRequests github owner repo pullRequests config
      else mret tt
  | check_suite action owner repo pullRequests =>
      if bool_decide (action ∈ ["completed"; "requested"; "rerequested"])
      then updateCheckPullRequests github owner repo pullRequests config
      else mret tt
  end.

(** * Properties *)

(** ** The sort *)

Section SortFacts.
Context {A : Type} (compareFn : A → A → Z).

Lemma sort_insert_perm x l : sort_insert compareFn x l ≡ₚ x :: l.
Proof.
  induction l as [|y l IH]; simpl; [done|].
  case_bool_decide; [done|].
  rewrite IH. apply Permutation_swap.
Qed.

Lemma sort_perm l : sort compareFn l ≡ₚ l.
Proof.
  induction l as [|x l IH]; simpl; [done|].
  by rewrite sort_insert_perm, IH.
Qed.

Lemma elem_of_sort x l : x ∈ sort compareFn l ↔ x ∈ l.
Proof. by rewrite sort_perm. Qed.
End SortFacts.

Lemma sort_insert_ascending x l :
  ascending l → ascending (sort_insert bySubmittedAt x l).
Proof.
  unfold ascending, bySubmittedAt.
  induction 1 as [|y l Hl IH Hy]; simpl.
  - repeat constructor.
  - case_bool_decide as Hxy.
    + constructor; [by constructor|].
      constructor; [lia|].
      eapply Forall_impl; [exact Hy|]. simpl. lia.
    + constructor; [done|].
      rewrite sort_insert_perm. constructor; [lia|done].
Qed.

Lemma sort_ascending reviews : ascending (sort bySubmittedAt reviews).
Proof.
  induction reviews as [|x l IH]; simpl.
  - constructor.
  - by apply sort_insert_ascending.
Qed.

(** Stability: the reviews submitted at one instant keep their input
    order. With [sort_perm] and [sort_ascending] this fixes the result. *)
Lemma sort_insert_stable (t : Z) x l :
  filter (λ r, submitted_at r = t) (sort_insert bySubmittedAt x l)
  = filter (λ r, submitted_at r = t) (x :: l).
Proof.
  induction l as [|y l IH]; simpl; [done|].
  unfold bySubmittedAt at 1. case_bool_decide as Hxy; [done|].
  rewrite (filter_cons _ y), IH, !(filter_cons _ x), (filter_cons _ y).
  repeat case_decide; try done. lia.
Qed.

Lemma sort_stable (t : Z) reviews :
  filter (λ r, submitted_at r = t) (sort bySubmittedAt reviews)
  = filter (λ r, submitted_at r = t) reviews.
Proof.
  induction reviews as [|x l IH]; simpl; [done|].
  by rewrite sort_insert_stable, !filter_cons, IH.
Qed.

(** ** The latest review of a reviewer *)

Lemma foldl_insert_lookup (u : string) (l : list Review) (m : gmap string ReviewState) :
  foldl (λ state review, <[user_login review := review_state review]> state) m l !! u
  = match last (filter (λ r, user_login r = u) l) with
    | Some r => Some (review_state r)
    | None => m !! u
    end.
Proof.
  induction l as [|x l IH] using rev_ind; [done|].
  rewrite foldl_app, filter_app. simpl.
  rewrite filter_cons, filter_nil.
  case_decide as Hx.
  - rewrite last_snoc. subst u. by rewrite lookup_insert_eq.
  - rewrite app_nil_r, lookup_insert_ne by done. exact IH.
Qed.

Lemma last_filter_sort_insert (u : string) x l :
  ascending l →
  last (filter (λ r, user_login r = u) (sort_insert bySubmittedAt x l))
  = if decide (user_login x = u) then
      match last (filter (λ r, user_login r = u) l) with
      | None => Some x
      | Some w =>
          if bool_decide (submitted_at x ≤ submitted_at w) then Some w else Some x
      end
    else last (filter (λ r, user_login r = u) l).
Proof.
  unfold ascending.
  destruct (decide (user_login x = u)) as [Hx|Hx];
    induction 1 as [|y l Hl IH Hy]; simpl;
    [ by rewrite filter_cons, filter_nil, decide_True | |
      by rewrite filter_cons, filter_nil, decide_False | ];
    unfold bySubmittedAt at 1; case_bool_decide as Hxy.
  - rewrite (filter_cons _ x), decide_True by done.
    rewrite last_cons.
    destruct (last (filter _ (y :: l))) as [w|] eqn:Hw; [|done].
    assert (w ∈ y :: l) as Hin.
    { apply last_Some_elem_of in Hw. by apply list_elem_of_filter in Hw as [_ ?]. }
    rewrite bool_decide_true; [done|].
    apply elem_of_cons in Hin as [->|Hin]; [lia|].
    rewrite Forall_forall in Hy. specialize (Hy _ Hin). simpl in Hy. lia.
  - rewrite !(filter_cons _ y).
    destruct (decide (user_login y = u)) as [Hy'|Hy']; [|exact IH].
    rewrite !last_cons, IH.
    destruct (last (filter _ l)) as [w|] eqn:Hw.
    + by case_bool_decide.
    + by rewrite bool_decide_false by lia.
  - by rewrite (filter_cons _ x), decide_False by done.
  - rewrite !(filter_cons _ y).
    destruct (decide (user_login y = u)) as [Hy'|Hy']; [|exact IH].
    by rewrite !last_cons, IH.
Qed.

Lemma last_filter_sort (u : string) reviews :
  last (filter (λ r, user_login r = u) (sort bySubmittedAt reviews))
  = latestOf u reviews.
Proof.
  induction reviews as [|x l IH]; simpl; [done|].
  rewrite last_filter_sort_insert by apply sort_ascending.
  by rewrite IH.
Qed.

Lemma latestReviews_lookup reviews u :
  latestReviews reviews !! u = review_state <$> latestOf u reviews.
Proof.
  unfold latestReviews. rewrite foldl_insert_lookup, last_filter_sort.
  by destruct (latestOf u reviews).
Qed.

Lemma latestOf_None u reviews :
  latestOf u reviews = None ↔ ∀ r, r ∈ reviews → user_login r ≠ u.
Proof.
  induction reviews as [|x l IH]; simpl.
  - split; [|done]. intros _ r Hr. by apply elem_of_nil in Hr.
  - destruct (decide (user_login x = u)) as [Hx|Hx].
    + split.
      * destruct (latestOf u l); [case_bool_decide|]; done.
      * intros H. destruct (H x); [left|done].
    + rewrite IH. split.
      * intros H r [->|Hr]%elem_of_cons; auto.
      * intros H r Hr. apply H. by right.
Qed.

Lemma latestOf_Some u reviews w :
  latestOf u reviews = Some w → user_login w = u ∧ ∃ i, latestAt reviews i w.
Proof.
  revert w. induction reviews as [|x l IH]; simpl; [done|]. intros w.
  destruct (decide (user_login x = u)) as [Hx|Hx].
  - destruct (latestOf u l) as [w0|] eqn:Hl.
    + destruct (IH w0 eq_refl) as [Hw0 [i0 [Hi0 Hmax]]].
      case_bool_decide as Hle; intros [= <-]; (split; [done|]).
      * exists (S i0). split; [done|]. intros [|j] r' Hj Hr'; simpl in Hj.
        -- injection Hj as <-. lia.
        -- destruct (Hmax j r' Hj Hr'); lia.
      * exists 0%nat. split; [done|]. intros [|j] r' Hj Hr'; simpl in Hj.
        -- injection Hj as <-. right. lia.
        -- assert (user_login r' = user_login w0) as Hr0 by congruence.
           destruct (Hmax j r' Hj Hr0); lia.
    + intros [= <-]. split; [done|].
      exists 0%nat. split; [done|]. intros [|j] r' Hj Hr'; simpl in Hj.
      * injection Hj as <-. right. lia.
      * apply latestOf_None with (r := r') in Hl.
        -- congruence.
        -- by eapply list_elem_of_lookup_2.
  - intros Hw. destruct (IH w Hw) as [Hwu [i [Hi Hmax]]]. split; [done|].
    exists (S i). split; [done|]. intros [|j] r' Hj Hr'; simpl in Hj.
    + injection Hj as <-. congruence.
    + destruct (Hmax j r' Hj Hr'); lia.
Qed.

Lemma latestAt_unique reviews i r i' r' :
  latestAt reviews i r → latestAt reviews i' r' →
  user_login r = user_login r' → i = i' ∧ r = r'.
Proof.
  intros [Hi Hmax] [Hi' Hmax'] Hu.
  destruct (Hmax i' r' Hi' (eq_sym Hu)) as [?|[? ?]];
    destruct (Hmax' i r Hi Hu) as [?|[? ?]]; try lia.
  assert (i = i') as -> by lia. split; [done|congruence].
Qed.

(** ** The aggregated mapping *)

Lemma latestReviews_dom reviews :
  dom (latestReviews reviews) = list_to_set (user_login <$> reviews).
Proof.
  apply set_eq. intros u.
  rewrite elem_of_dom, latestReviews_lookup, fmap_is_Some.
  rewrite elem_of_list_to_set, list_elem_of_fmap. split.
  - intros [w Hw]. apply latestOf_Some in Hw as [Hu [i [Hi _]]].
    exists w. split; [done|]. by eapply list_elem_of_lookup_2.
  - intros (r & -> & Hr).
    destruct (latestOf (user_login r) reviews) as [w|] eqn:Hw; [by exists w|].
    rewrite latestOf_None in Hw. by destruct (Hw r Hr).
Qed.

(** C3. The review aggregation yields the empty mapping on the empty list;
    its keys are the reviewers occurring in the input, one entry for each
    distinct reviewer; and a reviewer is mapped to a state exactly when that
    is the state of the reviewer's review with the greatest submission time,
    the one later in the input among those submitted at the same instant. *)
Theorem latestReviews_spec (reviews : list Review) :
  latestReviews [] = ∅
  ∧ dom (latestReviews reviews) = list_to_set (user_login <$> reviews)
  ∧ size (latestReviews reviews) = length (remove_dups (user_login <$> reviews))
  ∧ ∀ u s, latestReviews reviews !! u = Some s
           ↔ ∃ i r, latestAt reviews i r ∧ user_login r = u ∧ review_state r = s.
Proof.
  split; [done|]. split; [apply latestReviews_dom|]. split.
  - rewrite <- size_dom, latestReviews_dom.
    replace (list_to_set (user_login <$> reviews) : gset string)
      with (list_to_set (remove_dups (user_login <$> reviews)) : gset string).
    + apply size_list_to_set, NoDup_remove_dups.
    + apply set_eq. intros u. by rewrite !elem_of_list_to_set, elem_of_remove_dups.
  - intros u s. rewrite latestReviews_lookup. split.
    + destruct (latestOf u reviews) as [w|] eqn:Hw; [|done].
      intros [= <-]. apply latestOf_Some in Hw as [Hu [i Hi]]. by exists i, w.
    + intros (i & r & Hi & Hu & Hs).
      destruct (latestOf u reviews) as [w|] eqn:Hw.
      * apply latestOf_Some in Hw as [Hwu [i' Hi']].
        destruct (latestAt_unique _ _ _ _ _ Hi Hi') as [_ ->]; [congruence|].
        simpl. by rewrite Hs.
      * rewrite latestOf_None in Hw. destruct Hi as [Hi _].
        destruct (Hw r); [by eapply list_elem_of_lookup_2|done].
Qed.

Example latestReviews_tie :
  latestReviews
    [ {| user_login := "alice"; review_state := APPROVED; submitted_at := 5 |};
      {| user_login := "bob"; review_state := COMMENTED; submitted_at := 9 |};
      {| user_login := "alice"; review_state := CHANGES_REQUESTED; submitted_at := 5 |};
      {| user_login := "alice"; review_state := DISMISSED; submitted_at := 2 |} ]
  = {[ "alice" := CHANGES_REQUESTED; "bob" := COMMENTED ]}.
Proof. by vm_compute. Qed.

(** Every mapping is the aggregate of some review list, so a statement about
    the aggregates of all review lists is one about all mappings. *)
Lemma latestReviews_surj (latest : gmap string ReviewState) :
  ∃ reviews, latestReviews reviews = latest.
Proof.
  pose (mk := λ entry : string * ReviewState,
          {| user_login := entry.1; review_state := entry.2; submitted_at := 0 |}).
  exists (mk <$> map_to_list latest). apply map_eq. intros u.
  rewrite latestReviews_lookup.
  trans ((list_to_map (map_to_list latest) : gmap string ReviewState) !! u);
    [|by rewrite list_to_map_to_list].
  pose proof (NoDup_fst_map_to_list latest) as Hnodup.
  induction (map_to_list latest) as [|[u0 s0] l IH]; [done|].
  apply NoDup_cons in Hnodup as [Hu0 Hnodup].
  rewrite fmap_cons, list_to_map_cons. cbn [latestOf].
  change (user_login (mk (u0, s0))) with u0.
  destruct (decide (u0 = u)) as [->|Hne].
  - rewrite lookup_insert_eq.
    assert (latestOf u (mk <$> l) = None) as ->; [|done].
    apply latestOf_None. intros r (entry & -> & Hentry)%list_elem_of_fmap Hu.
    apply Hu0, list_elem_of_fmap. by exists entry.
  - rewrite lookup_insert_ne by done. by apply IH.
Qed.

(** ** The check aggregate *)

Lemma allChecksCompleted_spec checkRuns :
  allChecksCompleted checkRuns = true
  ↔ ∀ r, r ∈ checkRuns → status r = completed.
Proof.
  unfold allChecksCompleted. rewrite forallb_forall. split.
  - intros H r Hr. apply list_elem_of_In in Hr.
    by apply H, bool_decide_eq_true in Hr.
  - intros H r Hr. apply bool_decide_eq_true, H. by apply list_elem_of_In.
Qed.

Lemma allChecksCompleted_false checkRuns :
  allChecksCompleted checkRuns = false
  ↔ ∃ r, r ∈ checkRuns ∧ status r ≠ completed.
Proof.
  unfold allChecksCompleted. induction checkRuns as [|x l IH]; simpl.
  - split; [done|]. intros (r & Hr & _). by apply elem_of_nil in Hr.
  - rewrite andb_false_iff, IH, bool_decide_eq_false. split.
    + intros [Hx|(r & Hr & Hs)]; [exists x|exists r]; split; try done;
        [left|by right].
    + intros (r & [->|Hr]%elem_of_cons & Hs); [by left|right; by exists r].
Qed.

Lemma conclusionKey_inj : Inj (=) (=) conclusionKey.
Proof. intros [[]|] [[]|] H; by vm_compute in H. Qed.

Lemma foldl_conclusions_lookup k (l : list CheckRun) (m : gmap string bool) :
  foldl (λ result checkRun, <[conclusionKey (conclusion checkRun) := true]> result) m l !! k
  = if bool_decide (k ∈ (conclusionKey ∘ conclusion) <$> l) then Some true else m !! k.
Proof.
  revert m. induction l as [|x l IH]; intros m; simpl; [done|].
  rewrite IH.
  destruct (decide (k = conclusionKey (conclusion x))) as [->|Hne].
  - rewrite lookup_insert_eq.
    rewrite (bool_decide_true (_ ∈ _ :: _)) by left. by case_bool_decide.
  - rewrite lookup_insert_ne by done. apply (f_equal (λ b : bool, if b then _ else _)).
    apply bool_decide_ext. rewrite elem_of_cons. simpl. tauto.
Qed.

Lemma checkConclusions_lookup checkRuns k :
  checkConclusions checkRuns !! k
  = if bool_decide (k ∈ (conclusionKey ∘ conclusion) <$> checkRuns)
    then Some true else None.
Proof. unfold checkConclusions. by rewrite foldl_conclusions_lookup. Qed.

Lemma truthy_checkConclusions checkRuns (c : Conclusion) :
  truthy (checkConclusions checkRuns) (conclusionName c) = true
  ↔ ∃ r, r ∈ checkRuns ∧ conclusion r = Some c.
Proof.
  unfold truthy. rewrite checkConclusions_lookup.
  case_bool_decide as H; simpl; rewrite list_elem_of_fmap in H.
  - split; [intros _|done]. destruct H as (r & Hk & Hr). exists r. split; [done|].
    by apply conclusionKey_inj.
  - split; [done|]. intros (r & Hr & Hc). destruct H. exists r. simpl.
    by rewrite Hc.
Qed.

Lemma checksBlocking_spec checkRuns :
  checksBlocking (checkConclusions checkRuns) = true
  ↔ ∃ r c, r ∈ checkRuns ∧ conclusion r = Some c ∧ blocking c = true.
Proof.
  unfold checksBlocking. rewrite !orb_true_iff.
  rewrite (truthy_checkConclusions _ failure), (truthy_checkConclusions _ cancelled),
    (truthy_checkConclusions _ timed_out), (truthy_checkConclusions _ action_required).
  split.
  - intros [[[(r & ? & ?)|(r & ? & ?)]|(r & ? & ?)]|(r & ? & ?)];
      eexists r, _; eauto.
  - intros (r & c & Hr & Hc & Hb). destruct c; try done; eauto 10.
Qed.

(** C4. [allChecksCompleted] holds exactly when every run has status
    [completed]; the keys of the conclusion bag are exactly the conclusions
    that occur among the runs, each flagged [true]; the empty list gives
    [allChecksCompleted = true] and the empty bag. *)
Theorem check_aggregate_spec (checkRuns : list CheckRun) :
  (allChecksCompleted checkRuns = true
     ↔ ∀ r, r ∈ checkRuns → status r = completed)
  ∧ (∀ c : option Conclusion,
       conclusionKey c ∈ dom (checkConclusions checkRuns)
       ↔ ∃ r, r ∈ checkRuns ∧ conclusion r = c)
  ∧ (∀ k b, checkConclusions checkRuns !! k = Some b
            → b = true ∧ ∃ r, r ∈ checkRuns ∧ k = conclusionKey (conclusion r))
  ∧ allChecksCompleted [] = true
  ∧ checkConclusions [] = ∅.
Proof.
  split; [apply allChecksCompleted_spec|]. split; [|split; [|done]].
  - intros c. rewrite elem_of_dom, checkConclusions_lookup.
    case_bool_decide as H; rewrite list_elem_of_fmap in H.
    + split; [intros _|by eauto]. destruct H as (r & Hk & Hr).
      exists r. split; [done|]. symmetry. by apply conclusionKey_inj.
    + split; [by intros [? ?]|]. intros (r & Hr & <-). destruct H. by exists r.
  - intros k b. rewrite checkConclusions_lookup.
    case_bool_decide as H; [|done]. intros [= <-]. split; [done|].
    apply list_elem_of_fmap in H as (r & -> & Hr). by exists r.
Qed.

(** ** Counting reviewers *)

Lemma count_reviewStates (s : ReviewState) (latest : gmap string ReviewState) :
  length (filter (λ reviewState, reviewState = s) (reviewStates latest))
  = size (filter (λ entry : string * ReviewState, entry.2 = s) latest).
Proof.
  unfold reviewStates.
  induction latest as [|u x m Hu Hfirst IH] using map_first_key_ind.
  - by rewrite map_to_list_empty, map_filter_empty.
  - rewrite map_to_list_insert_first_key, fmap_cons, filter_cons by done.
    cbn [snd]. destruct (decide (x = s)) as [Hx|Hx].
    + rewrite map_filter_insert_True by done.
      rewrite map_size_insert_None, length_cons; [by rewrite IH|].
      by rewrite map_lookup_filter_None; left.
    + rewrite map_filter_insert_False by done.
      by rewrite delete_id.
Qed.

Lemma changesRequestedCount_reviewers latest :
  changesRequestedCount latest = reviewersIn CHANGES_REQUESTED latest.
Proof. unfold changesRequestedCount, reviewersIn. by rewrite count_reviewStates. Qed.

Lemma approvalCount_reviewers latest :
  approvalCount latest = reviewersIn APPROVED latest.
Proof. unfold approvalCount, reviewersIn. by rewrite count_reviewStates. Qed.

Lemma reviewersIn_nonneg s latest : 0 ≤ reviewersIn s latest.
Proof. unfold reviewersIn. lia. Qed.

(** ** The rule cascade *)

(** The exits of [updatePullRequest], one lemma for each, under the
    conditions that lead there. *)
Section Cascade.
Variables (github : GitHub) (pullRequest : PullRequest) (config : Config).

Let owner := base_user_login pullRequest.
Let repo := base_repo_name pullRequest.
Let num := number pullRequest.
Let run := updatePullRequest github pullRequest config.

Lemma rule1 :
  state pullRequest ≠ open →
  run = ([Log repo owner num MsgNotOpen], Some tt).
Proof.
  intros H. unfold run, updatePullRequest. by rewrite bool_decide_true.
Qed.

Lemma rule2 :
  state pullRequest = open → merged pullRequest = true →
  run = ([Log repo owner num MsgAlreadyMerged], Some tt).
Proof.
  intros H1 H2. unfold run, updatePullRequest.
  rewrite bool_decide_false by (by rewrite H1; intros []). by rewrite H2.
Qed.

Lemma rule3 :
  state pullRequest = open → merged pullRequest = false →
  mergeable pullRequest ≠ Some true →
  run = ([Log repo owner num (MsgNotMergeable (mergeable pullRequest))], Some tt).
Proof.
  intros H1 H2 H3. unfold run, updatePullRequest.
  rewrite bool_decide_false by (by rewrite H1; intros []). rewrite H2.
  by destruct (mergeable pullRequest) as [[]|].
Qed.

(** Past rules 1 to 3 the reviews are read. *)
Hypothesis (Hopen : state pullRequest = open).
Hypothesis (Hunmerged : merged pullRequest = false).
Hypothesis (Hmergeable : mergeable pullRequest = Some true).

Lemma reviews_rejected :
  pullRequests_getReviews github owner repo num = None →
  run = ([GetReviews owner repo num], None).
Proof.
  intros H. unfold run, updatePullRequest.
  rewrite bool_decide_false by (by rewrite Hopen; intros []).
  rewrite Hunmerged, Hmergeable. simpl. fold owner repo num. by rewrite H.
Qed.

Variable reviews : list Review.
Hypothesis (Hreviews : pullRequests_getReviews github owner repo num = Some reviews).

Let latest := latestReviews reviews.
Let reviewed := [GetReviews owner repo num; Log repo owner num (MsgReviews latest)].

Local Ltac past_rule3 :=
  unfold run, updatePullRequest;
  rewrite bool_decide_false by (by rewrite Hopen; intros []);
  rewrite Hunmerged, Hmergeable; simpl; fold owner repo num;
  rewrite Hreviews; simpl; fold latest.

Lemma rule4 :
  changesRequestedCount latest > min_approvals config →
  run = (reviewed ++ [Log repo owner num
                        (MsgChangesRequested (changesRequestedCount latest)
                                             (min_approvals config))], Some tt).
Proof. intros H. past_rule3. by rewrite bool_decide_true. Qed.

Hypothesis (Hrule4 : changesRequestedCount latest ≤ min_approvals config).

Lemma rule5 :
  approvalCount latest < max_requested_changes config →
  run = (reviewed ++ [Log repo owner num
                        (MsgNotEnoughApprovals (approvalCount latest)
                                               (max_requested_changes config))], Some tt).
Proof.
  intros H. past_rule3.
  rewrite bool_decide_false by lia. by rewrite bool_decide_true.
Qed.

Hypothesis (Hrule5 : max_requested_changes config ≤ approvalCount latest).

Let sha := head_sha pullRequest.

Local Ltac past_rule5 :=
  past_rule3; rewrite !bool_decide_false by lia; simpl; fold sha.

Lemma checks_rejected :
  checks_listForRef github owner repo sha = None →
  run = (reviewed ++ [ListForRef owner repo sha "latest"], None).
Proof. intros H. past_rule5. by rewrite H. Qed.

Variable checkRuns : list CheckRun.
Hypothesis (Hchecks : checks_listForRef github owner repo sha = Some checkRuns).

Let checked :=
  reviewed ++ [ListForRef owner repo sha "latest";
               Log repo owner num (MsgChecks checkRuns)].

Lemma rule6 :
  allChecksCompleted checkRuns = false →
  run = (checked ++ [Log repo owner num MsgPendingChecks;
                     SetTimeout (Recheck pullRequest config) 60000], Some tt).
Proof. intros H. past_rule5. rewrite Hchecks. simpl. by rewrite H. Qed.

Hypothesis (Hcompleted : allChecksCompleted checkRuns = true).

Let conclusions := checkConclusions checkRuns.
Let concluded := checked ++ [Log repo owner num (MsgConclusions conclusions)].

Lemma rule7 :
  checksBlocking conclusions = true →
  run = (concluded ++ [Log repo owner num MsgBlockingChecks], Some tt).
Proof.
  intros H. past_rule5. rewrite Hchecks. simpl. rewrite Hcompleted. simpl.
  fold conclusions. by rewrite H.
Qed.

Hypothesis (Hrule7 : checksBlocking conclusions = false).

Lemma rule8 :
  pullRequests_merge github owner repo num = Some tt →
  run = (concluded ++ [Merge owner repo num "merge";
                       Log repo owner num MsgMerge], Some tt).
Proof.
  intros H. past_rule5. rewrite Hchecks. simpl. rewrite Hcompleted. simpl.
  fold conclusions. rewrite Hrule7. simpl. by rewrite H.
Qed.

Lemma merge_rejected :
  pullRequests_merge github owner repo num = None →
  run = (concluded ++ [Merge owner repo num "merge"], None).
Proof.
  intros H. past_rule5. rewrite Hchecks. simpl. rewrite Hcompleted. simpl.
  fold conclusions. rewrite Hrule7. simpl. by rewrite H.
Qed.
End Cascade.

(** ** Reading the decision off the effects *)

Lemma decision_MERGE t : decision t = Some MERGE ↔ existsb isMerge t = true.
Proof.
  unfold decision. destruct (existsb isMerge t); [done|].
  split; [|done]. destruct (timers t) as [|[? ?] ?]; [|done].
  destruct (last t) as [[? ? ? msg| | | | |]|]; try done. by destruct (reasonOf msg).
Qed.

Lemma decision_BLOCKED t reason :
  decision t = Some (BLOCKED reason) → existsb isMerge t = false ∧ timers t = [].
Proof.
  unfold decision. destruct (existsb isMerge t); [done|].
  by destruct (timers t) as [|[? ?] ?].
Qed.

(** When the platform answers both reads, the evaluation takes the decision
    of the rule table on the aggregates of what it read. *)
Lemma decision_policy github pullRequest config reviews checkRuns :
  pullRequests_getReviews github (base_user_login pullRequest)
    (base_repo_name pullRequest) (number pullRequest) = Some reviews →
  checks_listForRef github (base_user_login pullRequest)
    (base_repo_name pullRequest) (head_sha pullRequest) = Some checkRuns →
  decision (actions (updatePullRequest github pullRequest config))
  = Some (policy pullRequest (latestReviews reviews) config
                 (allChecksCompleted checkRuns) (checkConclusions checkRuns)).
Proof.
  intros Hreviews Hchecks. unfold policy.
  rewrite <- changesRequestedCount_reviewers, <- approvalCount_reviewers.
  case_bool_decide as H1; [by rewrite rule1|].
  destruct (merged pullRequest) eqn:H2; [by rewrite rule2|].
  case_bool_decide as H3; [by rewrite rule3|].
  case_bool_decide as H4; [by erewrite rule4|].
  case_bool_decide as H5; [by erewrite rule5 by (done || lia)|].
  destruct (allChecksCompleted checkRuns) eqn:H6; simpl;
    [|by erewrite rule6 by (done || lia)].
  destruct (checksBlocking (checkConclusions checkRuns)) eqn:H7;
    [by erewrite rule7 by (done || lia)|].
  destruct (pullRequests_merge github (base_user_login pullRequest)
              (base_repo_name pullRequest) (number pullRequest)) as [[]|] eqn:H8.
  - by erewrite rule8 by (done || lia).
  - by erewrite merge_rejected by (done || lia).
Qed.

(** ** The claims about the rule cascade *)

(** C6. A pull request whose state is not open is blocked as "not open",
    whatever the reviews, the check runs and the configuration: the
    evaluation logs that line and does nothing else, so it reads nothing,
    requests no merge and sets no timer. *)
Theorem not_open_blocks github pullRequest config :
  state pullRequest ≠ open →
  let run := updatePullRequest github pullRequest config in
  decision (actions run) = Some (BLOCKED NotOpen)
  ∧ actions run = [Log (base_repo_name pullRequest) (base_user_login pullRequest)
                       (number pullRequest) MsgNotOpen]
  ∧ existsb isMerge (actions run) = false
  ∧ timers (actions run) = [].
Proof. intros H. simpl. by rewrite rule1. Qed.

Lemma not_open_blocks_witness :
  decision (actions (updatePullRequest (platform closedPR [alice_approves] [ci_passed])
                                       closedPR defaultConfig))
  = Some (BLOCKED NotOpen).
Proof.
  apply (not_open_blocks (platform closedPR [alice_approves] [ci_passed])
                         closedPR defaultConfig).
  simpl. discriminate.
Defined.

(** C5. An open, unmerged pull request whose mergeable flag is [false] or
    [null] is blocked as "not mergeable", whatever the reviews and checks:
    the evaluation logs that line and does nothing else, so no merge is
    requested. *)
Theorem not_mergeable_blocks github pullRequest config :
  state pullRequest = open →
  merged pullRequest = false →
  mergeable pullRequest ≠ Some true →
  let run := updatePullRequest github pullRequest config in
  decision (actions run) = Some (BLOCKED NotMergeable)
  ∧ decision (actions run) ≠ Some MERGE
  ∧ actions run = [Log (base_repo_name pullRequest) (base_user_login pullRequest)
                       (number pullRequest)
                       (MsgNotMergeable (mergeable pullRequest))]
  ∧ existsb isMerge (actions run) = false.
Proof. intros H1 H2 H3. simpl. by rewrite rule3. Qed.

Lemma not_mergeable_blocks_witness :
  decision (actions (updatePullRequest (platform unknownPR [alice_approves] [ci_passed])
                                       unknownPR defaultConfig))
  = Some (BLOCKED NotMergeable).
Proof.
  apply (not_mergeable_blocks (platform unknownPR [alice_approves] [ci_passed])
                              unknownPR defaultConfig);
    simpl; [reflexivity | reflexivity | discriminate].
Defined.

(** C2. For an open, unmerged, mergeable pull request and every mapping of
    reviewers to their latest state, the evaluation blocks with "too many
    change requests" exactly when the number of reviewers in state
    CHANGES_REQUESTED exceeds [min-approvals]; when it does not, the
    evaluation blocks with "not enough approvals" exactly when the number of
    reviewers in state APPROVED is below [max-requested-changes]. *)
Theorem thresholds_cross_wired github pullRequest config reviews latest :
  state pullRequest = open →
  merged pullRequest = false →
  mergeable pullRequest = Some true →
  pullRequests_getReviews github (base_user_login pullRequest)
    (base_repo_name pullRequest) (number pullRequest) = Some reviews →
  latestReviews reviews = latest →
  let run := updatePullRequest github pullRequest config in
  (decision (actions run) = Some (BLOCKED TooManyChangeRequests)
     ↔ reviewersIn CHANGES_REQUESTED latest > min_approvals config)
  ∧ (reviewersIn CHANGES_REQUESTED latest ≤ min_approvals config →
     (decision (actions run) = Some (BLOCKED NotEnoughApprovals)
        ↔ reviewersIn APPROVED latest < max_requested_changes config)).
Proof.
  intros H1 H2 H3 Hreviews <-. simpl.
  rewrite <- changesRequestedCount_reviewers, <- approvalCount_reviewers.
  destruct (decide (changesRequestedCount (latestReviews reviews) > min_approvals config))
    as [H4|H4].
  { erewrite rule4 by done. split; [done|lia]. }
  destruct (decide (approvalCount (latestReviews reviews) < max_requested_changes config))
    as [H5|H5].
  { erewrite rule5 by (done || lia). split; [done|]. by intros _. }
  assert (∀ reason, reason = TooManyChangeRequests ∨ reason = NotEnoughApprovals →
            decision (actions (updatePullRequest github pullRequest config))
            ≠ Some (BLOCKED reason)) as Hpast.
  { intros reason Hreason.
    destruct (checks_listForRef github (base_user_login pullRequest)
                (base_repo_name pullRequest) (head_sha pullRequest))
      as [checkRuns|] eqn:Hchecks.
    - erewrite decision_policy by done. unfold policy.
      rewrite <- changesRequestedCount_reviewers, <- approvalCount_reviewers.
      rewrite bool_decide_false by (by rewrite H1; intros []).
      rewrite H2, (bool_decide_false (mergeable _ ≠ _)) by (by rewrite H3; intros []).
      rewrite !bool_decide_false by done.
      destruct (allChecksCompleted checkRuns); simpl; [|by destruct Hreason as [->| ->]].
      destruct (checksBlocking _); by destruct Hreason as [->| ->].
    - erewrite checks_rejected by (done || lia). by destruct Hreason as [->| ->]. }
  split; [|intros _]; (split; [|lia]); intros Hd; by apply Hpast in Hd; auto.
Qed.

Lemma thresholds_cross_wired_witness :
  decision (actions (updatePullRequest
                       (platform samplePR [alice_rejects; bob_rejects] [ci_passed])
                       samplePR defaultConfig))
  = Some (BLOCKED TooManyChangeRequests)
  ↔ reviewersIn CHANGES_REQUESTED (latestReviews [alice_rejects; bob_rejects])
    > min_approvals defaultConfig.
Proof.
  apply (thresholds_cross_wired
           (platform samplePR [alice_rejects; bob_rejects] [ci_passed])
           samplePR defaultConfig [alice_rejects; bob_rejects]
           (latestReviews [alice_rejects; bob_rejects]));
    reflexivity.
Defined.

(** C7. When the platform answers the reads, every check run is completed
    and some run concluded with failure, cancelled, timed_out or
    action_required, the evaluation ends blocked, whatever the reviews: it
    requests no merge and sets no timer, and when rules 1 to 5 pass the
    reason is the blocking check conclusion. *)
Theorem blocking_conclusion_blocks github pullRequest config reviews checkRuns :
  pullRequests_getReviews github (base_user_login pullRequest)
    (base_repo_name pullRequest) (number pullRequest) = Some reviews →
  checks_listForRef github (base_user_login pullRequest)
    (base_repo_name pullRequest) (head_sha pullRequest) = Some checkRuns →
  allChecksCompleted checkRuns = true →
  (∃ r c, r ∈ checkRuns ∧ conclusion r = Some c ∧ blocking c = true) →
  let run := updatePullRequest github pullRequest config in
  (∃ reason, decision (actions run) = Some (BLOCKED reason))
  ∧ decision (actions run) ≠ Some MERGE
  ∧ existsb isMerge (actions run) = false
  ∧ timers (actions run) = []
  ∧ (state pullRequest = open → merged pullRequest = false →
     mergeable pullRequest = Some true →
     reviewersIn CHANGES_REQUESTED (latestReviews reviews) ≤ min_approvals config →
     max_requested_changes config ≤ reviewersIn APPROVED (latestReviews reviews) →
     decision (actions run) = Some (BLOCKED BlockingCheckConclusion)).
Proof.
  intros Hreviews Hchecks Hcompleted Hblocking. simpl.
  apply checksBlocking_spec in Hblocking.
  pose proof (decision_policy _ _ config _ _ Hreviews Hchecks) as Hd.
  unfold policy in Hd. rewrite Hcompleted, Hblocking in Hd. simpl in Hd.
  assert (∃ reason, decision (actions (updatePullRequest github pullRequest config))
                    = Some (BLOCKED reason)) as [reason Hreason].
  { rewrite Hd. repeat case_bool_decide; repeat case_match; eauto. }
  split; [by exists reason|]. split; [by rewrite Hreason|].
  destruct (decision_BLOCKED _ _ Hreason) as [-> ->]. do 2 (split; [done|]).
  intros H1 H2 H3 H4 H5. rewrite Hd.
  rewrite bool_decide_false by (by rewrite H1; intros []).
  rewrite H2, (bool_decide_false (mergeable _ ≠ _)) by (by rewrite H3; intros []).
  by rewrite !bool_decide_false by lia.
Qed.

Lemma blocking_conclusion_blocks_witness :
  decision (actions (updatePullRequest
                       (platform samplePR [alice_approves] [lint_passed; ci_failed])
                       samplePR defaultConfig))
  ≠ Some MERGE.
Proof.
  apply (blocking_conclusion_blocks
           (platform samplePR [alice_approves] [lint_passed; ci_failed])
           samplePR defaultConfig [alice_approves] [lint_passed; ci_failed]);
    [reflexivity | reflexivity | reflexivity |].
  exists ci_failed, failure. split; [|split; reflexivity].
  apply list_elem_of_In. simpl. auto.
Defined.

(** C8. For an open, unmerged, mergeable pull request whose reviews pass
    rules 4 and 5, a check run that is not completed makes the evaluation
    pending: it requests no merge, and it sets exactly one timer, of 60000
    milliseconds, holding the re-evaluation. *)
Theorem pending_checks_recheck github pullRequest config reviews checkRuns :
  state pullRequest = open →
  merged pullRequest = false →
  mergeable pullRequest = Some true →
  pullRequests_getReviews github (base_user_login pullRequest)
    (base_repo_name pullRequest) (number pullRequest) = Some reviews →
  reviewersIn CHANGES_REQUESTED (latestReviews reviews) ≤ min_approvals config →
  max_requested_changes config ≤ reviewersIn APPROVED (latestReviews reviews) →
  checks_listForRef github (base_user_login pullRequest)
    (base_repo_name pullRequest) (head_sha pullRequest) = Some checkRuns →
  (∃ r, r ∈ checkRuns ∧ status r ≠ completed) →
  let run := updatePullRequest github pullRequest config in
  decision (actions run) = Some (PENDING 60000)
  ∧ existsb isMerge (actions run) = false
  ∧ timers (actions run) = [(Recheck pullRequest config, 60000)]
  ∧ result run = Some tt.
Proof.
  intros H1 H2 H3 Hreviews H4 H5 Hchecks Hpending. simpl.
  rewrite <- changesRequestedCount_reviewers in H4.
  rewrite <- approvalCount_reviewers in H5.
  apply allChecksCompleted_false in Hpending.
  by erewrite rule6.
Qed.

Lemma pending_checks_recheck_witness :
  timers (actions (updatePullRequest
                     (platform samplePR [alice_approves] [lint_passed; ci_running])
                     samplePR defaultConfig))
  = [(Recheck samplePR defaultConfig, 60000)].
Proof.
  apply (pending_checks_recheck
           (platform samplePR [alice_approves] [lint_passed; ci_running])
           samplePR defaultConfig [alice_approves] [lint_passed; ci_running]);
    try reflexivity.
  - vm_compute. discriminate.
  - vm_compute. discriminate.
  - exists ci_running. split; [|simpl; discriminate].
    apply list_elem_of_In. simpl. auto.
Defined.

(** C9. The decision depends on the platform only through the aggregates:
    two evaluations of the same pull request snapshot under the same
    configuration, whose reads aggregate to the same reviewer mapping, the
    same completion flag and the same conclusion bag, take the same
    decision. *)
Theorem decision_deterministic github1 github2 pullRequest config
    reviews1 reviews2 checkRuns1 checkRuns2 :
  pullRequests_getReviews github1 (base_user_login pullRequest)
    (base_repo_name pullRequest) (number pullRequest) = Some reviews1 →
  pullRequests_getReviews github2 (base_user_login pullRequest)
    (base_repo_name pullRequest) (number pullRequest) = Some reviews2 →
  checks_listForRef github1 (base_user_login pullRequest)
    (base_repo_name pullRequest) (head_sha pullRequest) = Some checkRuns1 →
  checks_listForRef github2 (base_user_login pullRequest)
    (base_repo_name pullRequest) (head_sha pullRequest) = Some checkRuns2 →
  latestReviews reviews1 = latestReviews reviews2 →
  allChecksCompleted checkRuns1 = allChecksCompleted checkRuns2 →
  checkConclusions checkRuns1 = checkConclusions checkRuns2 →
  decision (actions (updatePullRequest github1 pullRequest config))
  = decision (actions (updatePullRequest github2 pullRequest config)).
Proof.
  intros Hr1 Hr2 Hc1 Hc2 Hlatest Hcompleted Hconclusions.
  rewrite (decision_policy _ _ _ _ _ Hr1 Hc1), (decision_policy _ _ _ _ _ Hr2 Hc2).
  by rewrite Hlatest, Hcompleted, Hconclusions.
Qed.

Lemma decision_deterministic_witness :
  decision (actions (updatePullRequest
                       (platform samplePR [alice_approves; bob_rejects; bob_approves]
                                 [ci_passed; lint_passed])
                       samplePR defaultConfig))
  = decision (actions (updatePullRequest
                         (platform closedPR [bob_approves; alice_approves]
                                   [lint_passed; ci_passed; ci_passed])
                         samplePR defaultConfig)).
Proof.
  apply (decision_deterministic
           (platform samplePR [alice_approves; bob_rejects; bob_approves]
                     [ci_passed; lint_passed])
           (platform closedPR [bob_approves; alice_approves]
                     [lint_passed; ci_passed; ci_passed])
           samplePR defaultConfig
           [alice_approves; bob_rejects; bob_approves] [bob_approves; alice_approves]
           [ci_passed; lint_passed] [lint_passed; ci_passed; ci_passed]);
    try reflexivity; by vm_compute.
Defined.

(** ** What an evaluation never does *)

Local Ltac exits :=
  unfold updatePullRequest, await, perform, actions;
  repeat (case_bool_decide || case_match || (progress cbn)).

(** [updatePullRequest] itself never reads the pull request. *)
Lemma updatePullRequest_no_get github pullRequest config :
  existsb isGetPullRequest (actions (updatePullRequest github pullRequest config))
  = false.
Proof. exits; by simplify_eq. Qed.

(** The line of rule 5 is only logged when the approvals are below the
    threshold. *)
Lemma NotEnoughApprovals_inv github pullRequest config :
  decision (actions (updatePullRequest github pullRequest config))
  = Some (BLOCKED NotEnoughApprovals) →
  ∃ reviews, approvalCount (latestReviews reviews) < max_requested_changes config.
Proof. exits; intros; simplify_eq; eauto. Qed.

Lemma all_successful checkRuns :
  (∀ r, r ∈ checkRuns → status r = completed ∧ conclusion r = Some success) →
  allChecksCompleted checkRuns = true
  ∧ checksBlocking (checkConclusions checkRuns) = false.
Proof.
  intros H. split.
  - apply allChecksCompleted_spec. intros r Hr. by apply H.
  - apply not_true_is_false. rewrite checksBlocking_spec.
    intros (r & c & Hr & Hc & Hb). destruct (H r Hr) as [_ Hs].
    rewrite Hs in Hc. injection Hc as <-. done.
Qed.

(** C10. Under the default configuration the approval rule never blocks:
    no mapping has fewer than zero approvals, and no evaluation ends with
    "not enough approvals". An open, unmerged, mergeable pull request
    without reviews, whose check runs are none or all completed with
    success, is merged: the merge is requested with method "merge", and
    when the platform accepts it the evaluation completes with the merge
    line. *)
Theorem default_config_merges github pullRequest checkRuns :
  (∀ latest, ¬ approvalCount latest < max_requested_changes defaultConfig)
  ∧ (∀ github' pullRequest',
       decision (actions (updatePullRequest github' pullRequest' defaultConfig))
       ≠ Some (BLOCKED NotEnoughApprovals))
  ∧ (state pullRequest = open →
     merged pullRequest = false →
     mergeable pullRequest = Some true →
     pullRequests_getReviews github (base_user_login pullRequest)
       (base_repo_name pullRequest) (number pullRequest) = Some [] →
     checks_listForRef github (base_user_login pullRequest)
       (base_repo_name pullRequest) (head_sha pullRequest) = Some checkRuns →
     (∀ r, r ∈ checkRuns → status r = completed ∧ conclusion r = Some success) →
     let run := updatePullRequest github pullRequest defaultConfig in
     approvalCount (latestReviews []) = 0
     ∧ changesRequestedCount (latestReviews []) = 0
     ∧ decision (actions run) = Some MERGE
     ∧ Merge (base_user_login pullRequest) (base_repo_name pullRequest)
             (number pullRequest) "merge" ∈ actions run
     ∧ (pullRequests_merge github (base_user_login pullRequest)
          (base_repo_name pullRequest) (number pullRequest) = Some tt →
        result run = Some tt
        ∧ last (actions run)
          = Some (Log (base_repo_name pullRequest) (base_user_login pullRequest)
                      (number pullRequest) MsgMerge))).
Proof.
  assert (∀ latest, ¬ approvalCount latest < max_requested_changes defaultConfig)
    as Hnever.
  { intros latest. unfold approvalCount. simpl. lia. }
  split; [done|]. split.
  { intros github' pullRequest' [reviews H]%NotEnoughApprovals_inv.
    by apply Hnever in H. }
  intros H1 H2 H3 Hreviews Hchecks Hall. simpl.
  destruct (all_successful _ Hall) as [Hcompleted Hblocking].
  do 2 (split; [done|]).
  destruct (pullRequests_merge github (base_user_login pullRequest)
              (base_repo_name pullRequest) (number pullRequest)) as [[]|] eqn:Hmerge.
  - erewrite rule8 by done. simpl. split; [done|].
    split; [|done]. rewrite !elem_of_cons. tauto.
  - erewrite merge_rejected by done. simpl. split; [done|].
    split; [|done]. rewrite !elem_of_cons. tauto.
Qed.

Lemma default_config_merges_witness :
  decision (actions (updatePullRequest (platform samplePR [] [ci_passed; lint_passed])
                                       samplePR defaultConfig))
  = Some MERGE.
Proof.
  apply (default_config_merges (platform samplePR [] [ci_passed; lint_passed])
                               samplePR [ci_passed; lint_passed]);
    try reflexivity.
  intros r Hr. apply list_elem_of_In in Hr. simpl in Hr.
  destruct Hr as [<-|[<-|[]]]; split; reflexivity.
Defined.

Example default_config_merges_without_checks :
  updatePullRequest (platform samplePR [] []) samplePR defaultConfig
  = ([GetReviews "octo" "app" 7; Log "app" "octo" 7 (MsgReviews ∅);
      ListForRef "octo" "app" "abc123" "latest"; Log "app" "octo" 7 (MsgChecks []);
      Log "app" "octo" 7 (MsgConclusions ∅);
      Merge "octo" "app" 7 "merge"; Log "app" "octo" 7 MsgMerge], Some tt).
Proof. reflexivity. Qed.

(** ** The recheck *)

(** The check handlers read the pull request before they evaluate it. *)
Example check_handler_reads_pull_request :
  actions (updateCheckPullRequests (platform closedPR [] [ci_passed]) "octo" "app"
             [{| cpr_number := 7 |}] defaultConfig)
  = [GetPullRequest "octo" "app" 7; Log "app" "octo" 7 MsgNotOpen].
Proof. reflexivity. Qed.

(** C1. The timer set on pending checks holds the pull request object of
    the evaluation that set it. With the pull request closed on the
    platform by the time the timer fires and the checks completed, the
    re-evaluation reads the reviews and the checks anew but not the pull
    request: rules 1 to 3 pass on the state, merged and mergeable values of
    the snapshot, and a merge is requested for a closed pull request. *)
Theorem recheck_keeps_snapshot :
  let scheduled := platform samplePR [alice_approves] [ci_running] in
  let later := platform closedPR [alice_approves] [ci_passed] in
  let first := updatePullRequest scheduled samplePR defaultConfig in
  let retry := fire later (Recheck samplePR defaultConfig) in
  timers (actions first) = [(Recheck samplePR defaultConfig, 60000)]
  ∧ (state <$> pullRequests_get later "octo" "app" 7) = Some closed
  ∧ existsb isGetPullRequest (actions retry) = false
  ∧ decision (actions retry) = Some MERGE
  ∧ actions retry
    = [GetReviews "octo" "app" 7;
       Log "app" "octo" 7 (MsgReviews {[ "alice" := APPROVED ]});
       ListForRef "octo" "app" "abc123" "latest";
       Log "app" "octo" 7 (MsgChecks [ci_passed]);
       Log "app" "octo" 7 (MsgConclusions {[ "success" := true ]});
       Merge "octo" "app" 7 "merge"]
  ∧ decision (actions (updatePullRequest later closedPR defaultConfig))
    = Some (BLOCKED NotOpen).
Proof. by vm_compute. Qed.

(** * Further properties of the engine *)

(** ** The exits, case by case *)

(** Splits an evaluation into its eleven exits; in each case the run is
    replaced by what that exit does, and the conditions that lead there are
    in the context. *)
Local Ltac cascade github pr config :=
  destruct (decide (state pr = open)) as [Hopen|Hopen];
  [ destruct (merged pr) eqn:Hmerged;
    [ rewrite ?(rule2 github pr config Hopen Hmerged) in *
    | destruct (decide (mergeable pr = Some true)) as [Hmergeable|Hmergeable];
      [ destruct (pullRequests_getReviews github (base_user_login pr)
                    (base_repo_name pr) (number pr)) as [reviews|] eqn:Hreviews;
        [ destruct (decide (changesRequestedCount (latestReviews reviews)
                            > min_approvals config)) as [Hrule4|Hrule4];
          [ rewrite ?(rule4 github pr config Hopen Hmerged Hmergeable
                        reviews Hreviews Hrule4) in *
          | apply Znot_gt_le in Hrule4;
            destruct (decide (approvalCount (latestReviews reviews)
                              < max_requested_changes config)) as [Hrule5|Hrule5];
            [ rewrite ?(rule5 github pr config Hopen Hmerged Hmergeable
                          reviews Hreviews Hrule4 Hrule5) in *
            | apply Z.nlt_ge in Hrule5;
              destruct (checks_listForRef github (base_user_login pr)
                          (base_repo_name pr) (head_sha pr))
                as [checkRuns|] eqn:Hchecks;
              [ destruct (allChecksCompleted checkRuns) eqn:Hcompleted;
                [ destruct (checksBlocking (checkConclusions checkRuns)) eqn:Hblocking;
                  [ rewrite ?(rule7 github pr config Hopen Hmerged Hmergeable
                                reviews Hreviews Hrule4 Hrule5
                                checkRuns Hchecks Hcompleted Hblocking) in *
                  | destruct (pullRequests_merge github (base_user_login pr)
                                (base_repo_name pr) (number pr))
                      as [[]|] eqn:Hmerge;
                    [ rewrite ?(rule8 github pr config Hopen Hmerged Hmergeable
                                  reviews Hreviews Hrule4 Hrule5
                                  checkRuns Hchecks Hcompleted Hblocking Hmerge) in *
                    | rewrite ?(merge_rejected github pr config Hopen Hmerged
                                  Hmergeable reviews Hreviews Hrule4 Hrule5
                                  checkRuns Hchecks Hcompleted Hblocking Hmerge) in * ] ]
                | rewrite ?(rule6 github pr config Hopen Hmerged Hmergeable
                              reviews Hreviews Hrule4 Hrule5
                              checkRuns Hchecks Hcompleted) in * ]
              | rewrite ?(checks_rejected github pr config Hopen Hmerged Hmergeable
                            reviews Hreviews Hrule4 Hrule5 Hchecks) in * ] ] ]
        | rewrite ?(reviews_rejected github pr config Hopen Hmerged Hmergeable
                      Hreviews) in * ]
      | rewrite ?(rule3 github pr config Hopen Hmerged Hmergeable) in * ] ]
  | rewrite ?(rule1 github pr config Hopen) in * ].

(** ** What one evaluation does *)

(** X1. A pull request that is open but already merged is blocked as
    "already merged": the evaluation logs that line and does nothing else. *)
Theorem already_merged_blocks github pullRequest config :
  state pullRequest = open →
  merged pullRequest = true →
  let run := updatePullRequest github pullRequest config in
  run = ([Log (base_repo_name pullRequest) (base_user_login pullRequest)
              (number pullRequest) MsgAlreadyMerged], Some tt)
  ∧ decision (actions run) = Some (BLOCKED AlreadyMerged)
  ∧ calls (actions run) = []
  ∧ timers (actions run) = [].
Proof. intros H1 H2. simpl. by rewrite rule2. Qed.

Lemma already_merged_blocks_witness :
  decision (actions (updatePullRequest
                       (platform samplePR [alice_approves] [ci_passed])
                       {| base_repo_name := "app"; base_user_login := "octo";
                          number := 7; head_sha := "abc123"; state := open;
                          merged := true; mergeable := None |}
                       defaultConfig))
  = Some (BLOCKED AlreadyMerged).
Proof.
  apply (already_merged_blocks (platform samplePR [alice_approves] [ci_passed])
           {| base_repo_name := "app"; base_user_login := "octo";
              number := 7; head_sha := "abc123"; state := open;
              merged := true; mergeable := None |} defaultConfig);
    reflexivity.
Defined.

(** X2. The platform calls of an evaluation are, in this order, an initial
    part of: the reviews of the pull request, the latest check runs of its
    head commit, the merge with method "merge". So nothing is called twice,
    nothing is merged before both reads, and the pull request itself is
    never read. *)
Theorem calls_protocol github pullRequest config :
  calls (actions (updatePullRequest github pullRequest config))
  `prefix_of`
  [ GetReviews (base_user_login pullRequest) (base_repo_name pullRequest)
               (number pullRequest);
    ListForRef (base_user_login pullRequest) (base_repo_name pullRequest)
               (head_sha pullRequest) "latest";
    Merge (base_user_login pullRequest) (base_repo_name pullRequest)
          (number pullRequest) "merge" ].
Proof. cascade github pullRequest config; cbn; by eexists. Qed.

(** X3. A merge is requested exactly when the pull request is open, not
    merged and mergeable, the reviews were read and pass both thresholds,
    and the check runs were read, are all completed and none concluded with
    failure, cancelled, timed_out or action_required. *)
Theorem merge_requested_iff github pullRequest config :
  existsb isMerge (actions (updatePullRequest github pullRequest config)) = true
  ↔ state pullRequest = open
    ∧ merged pullRequest = false
    ∧ mergeable pullRequest = Some true
    ∧ ∃ reviews checkRuns,
        pullRequests_getReviews github (base_user_login pullRequest)
          (base_repo_name pullRequest) (number pullRequest) = Some reviews
        ∧ changesRequestedCount (latestReviews reviews) ≤ min_approvals config
        ∧ max_requested_changes config ≤ approvalCount (latestReviews reviews)
        ∧ checks_listForRef github (base_user_login pullRequest)
            (base_repo_name pullRequest) (head_sha pullRequest) = Some checkRuns
        ∧ (∀ r, r ∈ checkRuns → status r = completed)
        ∧ (∀ r c, r ∈ checkRuns → conclusion r = Some c → blocking c = false).
Proof.
  split.
  - intros Hm. cascade github pullRequest config; try done.
    all: do 3 (split; [done|]); exists reviews, checkRuns.
    all: repeat (split; [done|]); split; [by apply allChecksCompleted_spec|].
    all: intros r c Hr Hc; apply not_true_is_false; intros Hb.
    all: apply not_true_iff_false in Hblocking; apply Hblocking.
    all: apply checksBlocking_spec; by exists r, c.
  - intros (H1 & H2 & H3 & reviews' & checkRuns' & Hr & H4 & H5 & Hc & H6 & H7).
    assert (checksBlocking (checkConclusions checkRuns') = false) as Hnb.
    { apply not_true_is_false. rewrite checksBlocking_spec.
      intros (r & c & Hin & Hcon & Hb). by rewrite (H7 r c Hin Hcon) in Hb. }
    apply allChecksCompleted_spec in H6.
    cascade github pullRequest config; simplify_eq; cbn; try done; try lia; congruence.
Qed.

(** X4. An evaluation sets no timer or exactly one, of 60000 milliseconds,
    holding the pull request object and the configuration it was called
    with; it sets one exactly when rules 1 to 5 pass and the check runs were
    read with one of them not completed. *)
Theorem timers_spec github pullRequest config :
  let run := updatePullRequest github pullRequest config in
  (timers (actions run) = []
   ∨ timers (actions run) = [(Recheck pullRequest config, 60000)])
  ∧ (timers (actions run) ≠ []
     ↔ state pullRequest = open
       ∧ merged pullRequest = false
       ∧ mergeable pullRequest = Some true
       ∧ ∃ reviews checkRuns,
           pullRequests_getReviews github (base_user_login pullRequest)
             (base_repo_name pullRequest) (number pullRequest) = Some reviews
           ∧ changesRequestedCount (latestReviews reviews) ≤ min_approvals config
           ∧ max_requested_changes config ≤ approvalCount (latestReviews reviews)
           ∧ checks_listForRef github (base_user_login pullRequest)
               (base_repo_name pullRequest) (head_sha pullRequest) = Some checkRuns
           ∧ ∃ r, r ∈ checkRuns ∧ status r ≠ completed).
Proof.
  simpl. split.
  - cascade github pullRequest config; cbn; auto.
  - split.
    + intros Ht. cascade github pullRequest config; try done.
      do 3 (split; [done|]). exists reviews, checkRuns.
      repeat (split; [done|]). by apply allChecksCompleted_false.
    + intros (H1 & H2 & H3 & reviews' & checkRuns' & Hr & H4 & H5 & Hc & H6).
      apply allChecksCompleted_false in H6.
      cascade github pullRequest config; simplify_eq; cbn; try done; try lia; congruence.
Qed.

(** X5. An evaluation throws exactly when a platform call it reaches is
    rejected: the read of the reviews once rules 1 to 3 pass, the read of
    the check runs once rules 4 and 5 pass, or the merge once the checks
    are completed and not blocking. *)
Theorem throws_iff github pullRequest config :
  result (updatePullRequest github pullRequest config) = None
  ↔ state pullRequest = open
    ∧ merged pullRequest = false
    ∧ mergeable pullRequest = Some true
    ∧ match pullRequests_getReviews github (base_user_login pullRequest)
              (base_repo_name pullRequest) (number pullRequest) with
      | None => True
      | Some reviews =>
          changesRequestedCount (latestReviews reviews) ≤ min_approvals config
          ∧ max_requested_changes config ≤ approvalCount (latestReviews reviews)
          ∧ match checks_listForRef github (base_user_login pullRequest)
                    (base_repo_name pullRequest) (head_sha pullRequest) with
            | None => True
            | Some checkRuns =>
                allChecksCompleted checkRuns = true
                ∧ checksBlocking (checkConclusions checkRuns) = false
                ∧ pullRequests_merge github (base_user_login pullRequest)
                    (base_repo_name pullRequest) (number pullRequest) = None
            end
      end.
Proof.
  cascade github pullRequest config; cbn; split; try done.
  all: try (intros (? & ? & ? & ?); done || lia).
  all: try (intros (? & ? & ? & ? & ? & ? & ? & ?); done).
  all: try (intros (? & ? & ? & ? & ? & ?); done).
Qed.
(** X6. Every evaluation that returns has taken a decision that shows in
    its effects; no decision can be read off an evaluation exactly when it
    threw before requesting a merge. *)
Theorem decision_None_iff github pullRequest config :
  let run := updatePullRequest github pullRequest config in
  decision (actions run) = None
  ↔ result run = None ∧ existsb isMerge (actions run) = false.
Proof.
  simpl. cascade github pullRequest config; cbn; split; try done.
  all: by intros [? ?].
Qed.

(** X7. Every line an evaluation logs is tagged with the repository name,
    the owner and the number of the pull request it evaluates. *)
Theorem log_lines_tagged github pullRequest config repo owner n msg :
  Log repo owner n msg ∈ actions (updatePullRequest github pullRequest config) →
  repo = base_repo_name pullRequest
  ∧ owner = base_user_login pullRequest
  ∧ n = number pullRequest.
Proof.
  intros Hin. cascade github pullRequest config; cbn in Hin.
  all: repeat (apply elem_of_cons in Hin as [Hin|Hin]; [by simplify_eq|]).
  all: by apply elem_of_nil in Hin.
Qed.

Lemma log_lines_tagged_witness :
  "app" = base_repo_name samplePR
  ∧ "octo" = base_user_login samplePR
  ∧ 7 = number samplePR.
Proof.
  apply (log_lines_tagged (platform samplePR [] [ci_running]) samplePR
           defaultConfig "app" "octo" 7 MsgPendingChecks).
  apply list_elem_of_In. vm_compute. tauto.
Defined.

(** X8. When both reads are answered, the decision read off the effects is
    the one the eight ordered rules give on the pull request, the reviewer
    mapping, the configuration, the completion flag and the conclusion
    bag. *)
Theorem decision_refines_policy github pullRequest config reviews checkRuns :
  pullRequests_getReviews github (base_user_login pullRequest)
    (base_repo_name pullRequest) (number pullRequest) = Some reviews →
  checks_listForRef github (base_user_login pullRequest)
    (base_repo_name pullRequest) (head_sha pullRequest) = Some checkRuns →
  decision (actions (updatePullRequest github pullRequest config))
  = Some (policy pullRequest (latestReviews reviews) config
                 (allChecksCompleted checkRuns) (checkConclusions checkRuns)).
Proof. apply decision_policy. Qed.

Lemma decision_refines_policy_witness :
  decision (actions (updatePullRequest
                       (platform samplePR [alice_approves; bob_rejects] [ci_failed])
                       samplePR defaultConfig))
  = Some (policy samplePR (latestReviews [alice_approves; bob_rejects])
                 defaultConfig (allChecksCompleted [ci_failed])
                 (checkConclusions [ci_failed])).
Proof.
  apply (decision_refines_policy
           (platform samplePR [alice_approves; bob_rejects] [ci_failed])
           samplePR defaultConfig [alice_approves; bob_rejects] [ci_failed]);
    reflexivity.
Defined.

(** ** Thresholds out of range *)

(** X9. A configuration whose [max-requested-changes] is zero or negative
    switches rule 5 off: no evaluation ends with "not enough approvals". *)
Theorem nonpositive_max_never_blocks github pullRequest config :
  max_requested_changes config ≤ 0 →
  decision (actions (updatePullRequest github pullRequest config))
  ≠ Some (BLOCKED NotEnoughApprovals)
  ∧ ∀ count threshold,
      MsgNotEnoughApprovals count threshold
      ∉ logged (actions (updatePullRequest github pullRequest config)).
Proof.
  intros Hmax.
  assert (∀ latest, 0 ≤ approvalCount latest) as Hnn.
  { intros latest. unfold approvalCount. lia. }
  split.
  - intros [reviews H]%NotEnoughApprovals_inv. specialize (Hnn (latestReviews reviews)). lia.
  - intros count threshold Hin.
    cascade github pullRequest config; cbn in Hin.
    all: try (specialize (Hnn (latestReviews reviews)); lia).
    all: repeat (apply elem_of_cons in Hin as [Hin|Hin]; [done|]).
    all: by apply elem_of_nil in Hin.
Qed.

Lemma nonpositive_max_never_blocks_witness :
  decision (actions (updatePullRequest (platform samplePR [bob_rejects] [ci_passed])
                                       samplePR defaultConfig))
  ≠ Some (BLOCKED NotEnoughApprovals).
Proof.
  apply (nonpositive_max_never_blocks (platform samplePR [bob_rejects] [ci_passed])
                                      samplePR defaultConfig).
  simpl. lia.
Defined.

(** X10. The thresholds are not validated: with a negative [min-approvals]
    every pull request that reaches rule 4 is blocked with "too many change
    requests", also one without any review, and its checks are not read. *)
Theorem negative_min_always_blocks github pullRequest config reviews :
  min_approvals config < 0 →
  state pullRequest = open →
  merged pullRequest = false →
  mergeable pullRequest = Some true →
  pullRequests_getReviews github (base_user_login pullRequest)
    (base_repo_name pullRequest) (number pullRequest) = Some reviews →
  let run := updatePullRequest github pullRequest config in
  decision (actions run) = Some (BLOCKED TooManyChangeRequests)
  ∧ calls (actions run)
    = [GetReviews (base_user_login pullRequest) (base_repo_name pullRequest)
                  (number pullRequest)].
Proof.
  intros Hmin H1 H2 H3 Hreviews. simpl.
  erewrite rule4; [done..|]. unfold changesRequestedCount. lia.
Qed.

Lemma negative_min_always_blocks_witness :
  decision (actions (updatePullRequest
                       (platform samplePR [] [ci_passed]) samplePR
                       {| min_approvals := -1; max_requested_changes := 0 |}))
  = Some (BLOCKED TooManyChangeRequests).
Proof.
  apply (negative_min_always_blocks (platform samplePR [] [ci_passed]) samplePR
           {| min_approvals := -1; max_requested_changes := 0 |} []);
    try reflexivity.
Defined.

(** ** Rechecks *)

(** X11. Whatever the platform holds when a timer fires, the re-evaluation
    does not stop at rules 1 to 3: the pull request object in the closure
    passed them when the timer was set, so the re-evaluation starts by
    reading the reviews. *)
Theorem recheck_skips_rules_1_to_3 github later pullRequest config callback ms :
  (callback, ms) ∈ timers (actions (updatePullRequest github pullRequest config)) →
  ∃ rest,
    actions (fire later callback)
    = GetReviews (base_user_login pullRequest) (base_repo_name pullRequest)
                 (number pullRequest) :: rest.
Proof.
  intros Hin.
  assert (callback = Recheck pullRequest config
          ∧ state pullRequest = open ∧ merged pullRequest = false
          ∧ mergeable pullRequest = Some true) as (-> & H1 & H2 & H3).
  { cascade github pullRequest config; cbn in Hin.
    all: try by apply elem_of_nil in Hin.
    apply list_elem_of_singleton in Hin. by simplify_eq. }
  clear Hin. simpl.
  cascade later pullRequest config; try done; cbn; by eexists.
Qed.

Lemma recheck_skips_rules_1_to_3_witness :
  ∃ rest,
    actions (fire (platform closedPR [] [ci_passed]) (Recheck samplePR defaultConfig))
    = GetReviews (base_user_login samplePR) (base_repo_name samplePR)
                 (number samplePR) :: rest.
Proof.
  apply (recheck_skips_rules_1_to_3 (platform samplePR [] [ci_running])
           (platform closedPR [] [ci_passed]) samplePR defaultConfig
           (Recheck samplePR defaultConfig) 60000).
  apply list_elem_of_In. vm_compute. tauto.
Defined.

(** X12. Nothing bounds the rechecks: as long as, at each firing, the
    reviews pass rules 4 and 5 and some check run is not completed, every
    re-evaluation sets the next timer, so the chain is as long as the list
    of firings, and none of its evaluations requests a merge. *)
Theorem rechecks_unbounded platforms pullRequest config :
  state pullRequest = open →
  merged pullRequest = false →
  mergeable pullRequest = Some true →
  Forall (λ github,
            ∃ reviews checkRuns,
              pullRequests_getReviews github (base_user_login pullRequest)
                (base_repo_name pullRequest) (number pullRequest) = Some reviews
              ∧ changesRequestedCount (latestReviews reviews) ≤ min_approvals config
              ∧ max_requested_changes config ≤ approvalCount (latestReviews reviews)
              ∧ checks_listForRef github (base_user_login pullRequest)
                  (base_repo_name pullRequest) (head_sha pullRequest) = Some checkRuns
              ∧ allChecksCompleted checkRuns = false) platforms →
  let chain := rechecks platforms (Recheck pullRequest config) in
  length chain = length platforms
  ∧ Forall (λ run, timers (actions run) = [(Recheck pullRequest config, 60000)]
                   ∧ existsb isMerge (actions run) = false) chain.
Proof.
  intros H1 H2 H3 Hall. simpl.
  induction Hall as [|github later (reviews & checkRuns & Hr & H4 & H5 & Hc & H6) _ IH];
    [by split|].
  cbn [rechecks fire].
  rewrite (rule6 github pullRequest config H1 H2 H3 reviews Hr H4 H5 checkRuns Hc H6).
  cbn. destruct IH as [IHlen IHall]. split; [by rewrite IHlen|].
  constructor; [done|exact IHall].
Qed.

Lemma rechecks_unbounded_witness :
  length (rechecks (replicate 5 (platform samplePR [alice_approves] [ci_running]))
                   (Recheck samplePR defaultConfig))
  = length (replicate 5 (platform samplePR [alice_approves] [ci_running])).
Proof.
  apply (rechecks_unbounded
           (replicate 5 (platform samplePR [alice_approves] [ci_running]))
           samplePR defaultConfig); try reflexivity.
  repeat constructor; exists [alice_approves], [ci_running]; by vm_compute.
Defined.
(** ** More on the review aggregation *)

Lemma latestOf_greatest u reviews w :
  latestOf u reviews = Some w →
  w ∈ reviews ∧ user_login w = u
  ∧ ∀ r, r ∈ reviews → user_login r = u → submitted_at r ≤ submitted_at w.
Proof.
  intros (Hu & i & Hi & Hmax)%latestOf_Some.
  split; [by eapply list_elem_of_lookup_2|]. split; [done|].
  intros r (j & Hj)%list_elem_of_lookup_1 Hr.
  destruct (Hmax j r Hj) as [?|[? _]]; [congruence|lia..].
Qed.

(** X13. The order of the input matters only among reviews of one reviewer
    submitted at the same instant: two lists with the same reviews, in which
    such reviews agree on their state, aggregate to the same mapping. *)
Theorem latestReviews_perm (reviews reviews' : list Review) :
  reviews ≡ₚ reviews' →
  (∀ r r', r ∈ reviews → r' ∈ reviews →
           user_login r = user_login r' → submitted_at r = submitted_at r' →
           review_state r = review_state r') →
  latestReviews reviews = latestReviews reviews'.
Proof.
  intros Hperm Hagree. apply map_eq. intros u.
  rewrite !latestReviews_lookup.
  destruct (latestOf u reviews) as [w|] eqn:Hw;
    destruct (latestOf u reviews') as [w'|] eqn:Hw'; simpl.
  - apply latestOf_greatest in Hw as (Hin & Hu & Hmax).
    apply latestOf_greatest in Hw' as (Hin' & Hu' & Hmax').
    rewrite <- Hperm in Hin'. f_equal. apply Hagree; [done..|congruence|].
    apply Z.le_antisymm; [apply Hmax'|apply Hmax]; try done.
    by rewrite <- Hperm.
  - apply latestOf_greatest in Hw as (Hin & Hu & _).
    rewrite latestOf_None in Hw'. destruct (Hw' w); [by rewrite <- Hperm|done].
  - apply latestOf_greatest in Hw' as (Hin' & Hu' & _).
    rewrite latestOf_None in Hw. destruct (Hw w'); [by rewrite Hperm|done].
  - done.
Qed.

Lemma latestReviews_perm_witness :
  latestReviews [alice_approves; bob_rejects; alice_rejects; bob_approves]
  = latestReviews (reverse [alice_approves; bob_rejects; alice_rejects; bob_approves]).
Proof.
  apply (latestReviews_perm
           [alice_approves; bob_rejects; alice_rejects; bob_approves]
           (reverse [alice_approves; bob_rejects; alice_rejects; bob_approves])).
  - symmetry. apply reverse_Permutation.
  - intros r r' Hr Hr' _.
    apply list_elem_of_In in Hr, Hr'. simpl in Hr, Hr'.
    destruct Hr as [<-|[<-|[<-|[<-|[]]]]];
      destruct Hr' as [<-|[<-|[<-|[<-|[]]]]]; vm_compute; congruence.
Defined.

Lemma latestOf_snoc u reviews r :
  latestOf u (reviews ++ [r])
  = if decide (user_login r = u) then
      match latestOf u reviews with
      | Some w =>
          if bool_decide (submitted_at w ≤ submitted_at r) then Some r else Some w
      | None => Some r
      end
    else latestOf u reviews.
Proof.
  induction reviews as [|x l IH]; simpl.
  - by destruct (decide (user_login r = u)).
  - rewrite IH. clear IH.
    destruct (decide (user_login x = u)), (decide (user_login r = u)); try done.
    destruct (latestOf u l) as [w|]; repeat case_bool_decide; try done; lia.
Qed.

(** X14. A review added at the end of the list takes over its author's
    entry when it was submitted no earlier than each review of that author
    in the list, and leaves the mapping as it is when the author has a
    review submitted strictly later. The other entries never change. *)
Theorem latestReviews_snoc (reviews : list Review) (r : Review) :
  ((∀ r', r' ∈ reviews → user_login r' = user_login r →
          submitted_at r' ≤ submitted_at r) →
   latestReviews (reviews ++ [r])
   = <[user_login r := review_state r]> (latestReviews reviews))
  ∧ ((∃ r', r' ∈ reviews ∧ user_login r' = user_login r
            ∧ submitted_at r < submitted_at r') →
     latestReviews (reviews ++ [r]) = latestReviews reviews)
  ∧ ∀ u, u ≠ user_login r →
         latestReviews (reviews ++ [r]) !! u = latestReviews reviews !! u.
Proof.
  split; [|split].
  - intros Hle. apply map_eq. intros u.
    rewrite !latestReviews_lookup, latestOf_snoc.
    destruct (decide (user_login r = u)) as [<-|Hne].
    + rewrite lookup_insert_eq.
      destruct (latestOf (user_login r) reviews) as [w|] eqn:Hw; [|done].
      apply latestOf_greatest in Hw as (Hin & Hu & _).
      by rewrite bool_decide_true by auto.
    + by rewrite lookup_insert_ne, latestReviews_lookup.
  - intros (r' & Hin & Hu & Hlt). apply map_eq. intros u.
    rewrite !latestReviews_lookup, latestOf_snoc.
    destruct (decide (user_login r = u)) as [<-|Hne]; [|done].
    destruct (latestOf (user_login r) reviews) as [w|] eqn:Hw.
    + apply latestOf_greatest in Hw as (_ & _ & Hmax).
      specialize (Hmax r' Hin Hu). by rewrite bool_decide_false by lia.
    + rewrite latestOf_None in Hw. by destruct (Hw r' Hin).
  - intros u Hne. rewrite !latestReviews_lookup, latestOf_snoc.
    by rewrite decide_False.
Qed.

Lemma latestReviews_snoc_witness :
  latestReviews ([alice_approves; bob_rejects] ++ [alice_rejects])
  = <[user_login alice_rejects := review_state alice_rejects]>
      (latestReviews [alice_approves; bob_rejects]).
Proof.
  apply (latestReviews_snoc [alice_approves; bob_rejects] alice_rejects).
  intros r' Hr'. apply list_elem_of_In in Hr'. simpl in Hr'.
  destruct Hr' as [<-|[<-|[]]]; vm_compute; congruence.
Defined.

Lemma latestReviews_size reviews :
  size (latestReviews reviews) = length (remove_dups (user_login <$> reviews)).
Proof.
  rewrite <- size_dom, latestReviews_dom.
  replace (list_to_set (user_login <$> reviews) : gset string)
    with (list_to_set (remove_dups (user_login <$> reviews)) : gset string).
  - apply size_list_to_set, NoDup_remove_dups.
  - apply set_eq. intros u. by rewrite !elem_of_list_to_set, elem_of_remove_dups.
Qed.

Lemma count_disjoint (states : list ReviewState) :
  (length (filter (λ s, s = CHANGES_REQUESTED) states)
   + length (filter (λ s, s = APPROVED) states) ≤ length states)%nat.
Proof.
  induction states as [|s l IH]; simpl; [done|].
  rewrite !filter_cons. destruct s; repeat case_decide; simpl; try done; lia.
Qed.

(** X15. A reviewer counts once, however many reviews they submitted, and
    never on both sides: the rejections and the approvals together do not
    exceed the number of distinct reviewers of the input. *)
Theorem review_counts_bound (reviews : list Review) :
  0 ≤ changesRequestedCount (latestReviews reviews)
  ∧ 0 ≤ approvalCount (latestReviews reviews)
  ∧ changesRequestedCount (latestReviews reviews)
    + approvalCount (latestReviews reviews)
    ≤ Z.of_nat (length (remove_dups (user_login <$> reviews))).
Proof.
  unfold changesRequestedCount, approvalCount.
  pose proof (count_disjoint (reviewStates (latestReviews reviews))) as H.
  unfold reviewStates in *.
  rewrite length_fmap, length_map_to_list, latestReviews_size in H. lia.
Qed.

(** X16. The reduction takes the reviews in ascending order of submission:
    what it folds over holds exactly the input reviews, each as often as in
    the input, no review before one submitted earlier, and the reviews of
    one instant in their input order; a list already in ascending order is
    taken as it is. *)
Theorem sorted_reviews_spec (reviews : list Review) :
  sort bySubmittedAt reviews ≡ₚ reviews
  ∧ ascending (sort bySubmittedAt reviews)
  ∧ (∀ t, filter (λ r, submitted_at r = t) (sort bySubmittedAt reviews)
          = filter (λ r, submitted_at r = t) reviews)
  ∧ (ascending reviews → sort bySubmittedAt reviews = reviews).
Proof.
  split; [apply sort_perm|]. split; [apply sort_ascending|].
  split; [intros t; apply sort_stable|].
  unfold ascending. induction 1 as [|x l Hl IH Hx]; simpl; [done|].
  rewrite IH. destruct l as [|y l']; simpl; [done|].
  unfold bySubmittedAt at 1. rewrite bool_decide_true; [done|].
  apply Forall_cons in Hx as [Hxy _]. lia.
Qed.
Lemma sorted_reviews_spec_witness :
  sort bySubmittedAt [alice_approves; bob_rejects; alice_rejects; bob_approves]
  = [alice_approves; bob_rejects; alice_rejects; bob_approves].
Proof.
  apply (sorted_reviews_spec
           [alice_approves; bob_rejects; alice_rejects; bob_approves]).
  unfold ascending. repeat apply SSorted_cons; try apply SSorted_nil;
    repeat apply Forall_cons_2; try apply Forall_nil_2; by vm_compute.
Defined.

(** ** More on the check aggregation *)

Local Ltac in_list :=
  solve [repeat first [apply list_elem_of_here | apply list_elem_of_further]].

(** X17. The checks block exactly when some run concluded with failure,
    cancelled, timed_out or action_required; so they do not block exactly
    when every run has no conclusion or concluded with success, neutral or
    skipped, whatever its status. *)
Theorem checksBlocking_iff (checkRuns : list CheckRun) :
  (checksBlocking (checkConclusions checkRuns) = true
   ↔ ∃ r, r ∈ checkRuns
          ∧ conclusion r ∈ [Some failure; Some cancelled; Some timed_out;
                            Some action_required])
  ∧ (checksBlocking (checkConclusions checkRuns) = false
     ↔ ∀ r, r ∈ checkRuns →
            conclusion r ∈ [None; Some success; Some neutral; Some skipped]).
Proof.
  split.
  - rewrite checksBlocking_spec. split.
    + intros (r & c & Hr & Hc & Hb). exists r. split; [done|]. rewrite Hc.
      destruct c; try done; in_list.
    + intros (r & Hr & Hc). apply list_elem_of_In in Hc. simpl in Hc.
      destruct Hc as [Hc|[Hc|[Hc|[Hc|[]]]]]; eexists r, _;
        (split; [done|]); (split; [symmetry; exact Hc|done]).
  - rewrite <- not_true_iff_false, checksBlocking_spec. split.
    + intros Hnone r Hr. destruct (conclusion r) as [c|] eqn:Hcr; [|in_list].
      destruct c; try in_list; destruct Hnone; eexists r, _;
        (split; [done|]); (split; [exact Hcr|done]).
    + intros Hall (r & c & Hr & Hc & Hb). specialize (Hall r Hr).
      rewrite Hc in Hall. apply list_elem_of_In in Hall. simpl in Hall.
      destruct c; try done; intuition congruence.
Qed.

(** X18. The conclusion bag depends on the check runs only through the
    conclusions that occur: two lists give the same bag exactly when the
    same conclusions occur in both, whatever the order, the number and the
    names of the runs. *)
Theorem checkConclusions_eq_iff (checkRuns checkRuns' : list CheckRun) :
  checkConclusions checkRuns = checkConclusions checkRuns'
  ↔ ∀ c, c ∈ conclusion <$> checkRuns ↔ c ∈ conclusion <$> checkRuns'.
Proof.
  assert (∀ (l : list CheckRun) c, conclusionKey c ∈ (conclusionKey ∘ conclusion) <$> l
                 ↔ c ∈ conclusion <$> l) as Hkey.
  { intros l c. rewrite !list_elem_of_fmap. split.
    - intros (r & Hk & Hr). exists r. split; [|done]. by apply conclusionKey_inj.
    - intros (r & -> & Hr). by exists r. }
  split.
  - intros Heq c.
    pose proof (f_equal (λ m, m !! conclusionKey c) Heq) as Hc. simpl in Hc.
    rewrite !checkConclusions_lookup in Hc.
    rewrite <- !Hkey. repeat case_bool_decide; done.
  - intros Hsame. apply map_eq. intros k. rewrite !checkConclusions_lookup.
    apply (f_equal (λ b : bool, if b then _ else _)), bool_decide_ext.
    rewrite !list_elem_of_fmap. split.
    + intros (r & -> & Hr).
      assert (conclusion r ∈ conclusion <$> checkRuns') as Hin.
      { apply Hsame, list_elem_of_fmap. by exists r. }
      apply list_elem_of_fmap in Hin as (r' & Hc & Hr'). exists r'.
      split; [|done]. simpl. by rewrite Hc.
    + intros (r & -> & Hr).
      assert (conclusion r ∈ conclusion <$> checkRuns) as Hin.
      { apply Hsame, list_elem_of_fmap. by exists r. }
      apply list_elem_of_fmap in Hin as (r' & Hc & Hr'). exists r'.
      split; [|done]. simpl. by rewrite Hc.
Qed.

(** ** The check handlers *)

Lemma bind_actions_ok {A B} (m : Async A) (k : A → Async B) a :
  result m = Some a →
  actions (m ≫= k) = actions m ++ actions (k a)
  ∧ result (m ≫= k) = result (k a).
Proof.
  destruct m as [t [a'|]]; [|done]. intros [= ->].
  unfold mbind, Async_bind, actions, result. simpl. by destruct (k a).
Qed.

Lemma bind_throw {A B} (m : Async A) (k : A → Async B) :
  result m = None → m ≫= k = (actions m, None).
Proof. destruct m as [t [a'|]]; [done|]. by intros _. Qed.

(** X19. Evaluating a list of pull requests in two parts: when the first
    part completes, the second is evaluated after it; when the first part
    throws, the loop ends there and nothing of the second part is read or
    evaluated. *)
Theorem updateCheckPullRequests_app github owner repo config
    (first second : list CheckPullRequest) :
  let run1 := updateCheckPullRequests github owner repo first config in
  let run2 := updateCheckPullRequests github owner repo second config in
  updateCheckPullRequests github owner repo (first ++ second) config
  = match result run1 with
    | Some _ => (actions run1 ++ actions run2, result run2)
    | None => (actions run1, None)
    end.
Proof.
  simpl. induction first as [|cpr first IH]; simpl.
  - by destruct (updateCheckPullRequests github owner repo second config).
  - destruct (pullRequests_get github owner repo (cpr_number cpr)) as [pr|]; [|done].
    cbn. destruct (updatePullRequest github pr config) as [t [[]|]]; [|done].
    cbn. rewrite IH.
    destruct (updateCheckPullRequests github owner repo first config) as [t1 [[]|]];
      cbn; [|done].
    by rewrite !app_assoc.
Qed.

Lemma filter_isGetPullRequest_nil t :
  existsb isGetPullRequest t = false → List.filter isGetPullRequest t = [].
Proof.
  induction t as [|a t IH]; simpl; [done|].
  destruct (isGetPullRequest a); [done|]. exact IH.
Qed.

(** X20. The check handlers read each listed pull request at most once, in
    list order, by the owner and repository of the event and the number in
    the list; when the loop completes it has read every one of them, and an
    empty list reads and evaluates nothing. *)
Theorem updateCheckPullRequests_reads github owner repo config
    (pullRequests : list CheckPullRequest) :
  let run := updateCheckPullRequests github owner repo pullRequests config in
  let reads := (λ cpr, GetPullRequest owner repo (cpr_number cpr)) <$> pullRequests in
  List.filter isGetPullRequest (actions run) `prefix_of` reads
  ∧ (result run = Some tt → List.filter isGetPullRequest (actions run) = reads)
  ∧ (pullRequests = [] → run = ([], Some tt)).
Proof.
  simpl. split; [|split; [|by intros ->]].
  - induction pullRequests as [|cpr l IH]; simpl; [done|].
    destruct (pullRequests_get github owner repo (cpr_number cpr)) as [pr|];
      [|cbn; apply prefix_cons, prefix_nil].
    cbn. pose proof (updatePullRequest_no_get github pr config) as Hno.
    apply filter_isGetPullRequest_nil in Hno.
    destruct (updatePullRequest github pr config) as [t [[]|]]; cbn in *.
    + destruct (updateCheckPullRequests github owner repo l config) as [t' o].
      cbn in *. rewrite List.filter_app, Hno. by apply prefix_cons.
    + rewrite Hno. apply prefix_cons, prefix_nil.
  - induction pullRequests as [|cpr l IH]; simpl; [done|].
    destruct (pullRequests_get github owner repo (cpr_number cpr)) as [pr|];
      [|done].
    cbn. pose proof (updatePullRequest_no_get github pr config) as Hno.
    apply filter_isGetPullRequest_nil in Hno.
    destruct (updatePullRequest github pr config) as [t [[]|]]; cbn in *; [|done].
    destruct (updateCheckPullRequests github owner repo l config) as [t' o].
    cbn in *. intros Ho. by rewrite List.filter_app, Hno, IH.
Qed.

Lemma updateCheckPullRequests_reads_witness :
  List.filter isGetPullRequest
    (actions (updateCheckPullRequests (platform samplePR [] [ci_passed]) "octo" "app"
                [{| cpr_number := 7 |}; {| cpr_number := 8 |}] defaultConfig))
  = [GetPullRequest "octo" "app" 7; GetPullRequest "octo" "app" 8].
Proof.
  apply (updateCheckPullRequests_reads (platform samplePR [] [ci_passed]) "octo" "app"
           defaultConfig [{| cpr_number := 7 |}; {| cpr_number := 8 |}]).
  reflexivity.
Defined.

(** ** The merge line and the end of a chain *)

(** X22. The line 'Merge pull request' is logged exactly when the merge was
    requested and the platform accepted it; it is then the last thing the
    evaluation does. *)
Theorem merge_line_iff github pullRequest config :
  let run := updatePullRequest github pullRequest config in
  (MsgMerge ∈ logged (actions run)
   ↔ existsb isMerge (actions run) = true ∧ result run = Some tt)
  ∧ (MsgMerge ∈ logged (actions run) →
     last (actions run)
     = Some (Log (base_repo_name pullRequest) (base_user_login pullRequest)
                 (number pullRequest) MsgMerge)).
Proof.
  simpl. split; [split|].
  - intros H. cascade github pullRequest config; cbn in H |- *; try done.
    all: repeat (apply elem_of_cons in H as [H|H]; [done|]).
    all: by apply elem_of_nil in H.
  - intros [Hm Hr]. cascade github pullRequest config; cbn in Hm, Hr |- *;
      try done.
    in_list.
  - intros H. cascade github pullRequest config; cbn in H |- *; try done.
    all: repeat (apply elem_of_cons in H as [H|H]; [done|]).
    all: by apply elem_of_nil in H.
Qed.

Lemma merge_line_iff_witness :
  last (actions (updatePullRequest (platform samplePR [alice_approves] [ci_passed])
                                   samplePR defaultConfig))
  = Some (Log (base_repo_name samplePR) (base_user_login samplePR)
              (number samplePR) MsgMerge).
Proof.
  apply (merge_line_iff (platform samplePR [alice_approves] [ci_passed])
                        samplePR defaultConfig).
  apply list_elem_of_In. vm_compute. tauto.
Defined.

Lemma timers_shape github pullRequest config :
  timers (actions (updatePullRequest github pullRequest config)) = []
  ∨ timers (actions (updatePullRequest github pullRequest config))
    = [(Recheck pullRequest config, 60000)].
Proof. cascade github pullRequest config; cbn; auto. Qed.

Lemma merge_no_timer github pullRequest config :
  existsb isMerge (actions (updatePullRequest github pullRequest config)) = true →
  timers (actions (updatePullRequest github pullRequest config)) = [].
Proof. intros H. by cascade github pullRequest config. Qed.

(** X23. Every evaluation of a chain of rechecks is one of the pull request
    object and the configuration of the timer that started it, whatever the
    platform holds by then; and an evaluation of the chain that requests a
    merge is its last one, so a chain requests at most one merge. *)
Theorem rechecks_chain platforms pullRequest config :
  let chain := rechecks platforms (Recheck pullRequest config) in
  chain `prefix_of` ((λ github, updatePullRequest github pullRequest config)
                       <$> platforms)
  ∧ ∀ i run, chain !! i = Some run →
             existsb isMerge (actions run) = true →
             length chain = S i.
Proof.
  simpl. split.
  - induction platforms as [|github later IH]; [done|].
    cbn [rechecks fire fmap list_fmap]. apply prefix_cons.
    destruct (timers_shape github pullRequest config) as [-> | ->];
      [apply prefix_nil|exact IH].
  - induction platforms as [|github later IH]; intros i run Hi Hm; [done|].
    cbn [rechecks fire] in *.
    destruct i as [|i]; simpl in Hi.
    + injection Hi as <-. by rewrite merge_no_timer.
    + destruct (timers_shape github pullRequest config) as [Ht|Ht];
        rewrite Ht in *; [done|].
      simpl. f_equal. by apply (IH i run).
Qed.

Lemma rechecks_chain_witness :
  length (rechecks [platform samplePR [alice_approves] [ci_running];
                    platform samplePR [alice_approves] [ci_passed];
                    platform samplePR [alice_approves] [ci_passed]]
                   (Recheck samplePR defaultConfig))
  = 2%nat.
Proof.
  apply (proj2 (rechecks_chain
                  [platform samplePR [alice_approves] [ci_running];
                   platform samplePR [alice_approves] [ci_passed];
                   platform samplePR [alice_approves] [ci_passed]]
                  samplePR defaultConfig) 1%nat
           (updatePullRequest (platform samplePR [alice_approves] [ci_passed])
                              samplePR defaultConfig));
    reflexivity.
Defined.
